(** * precommit: checks, command-line front end and check engine

    A shallow embedding of [precommitlib/checks.py] and [precommitlib/main.py],
    together with the parts of [precommitlib/lib.py] they rely on
    ([BaseCheck], [Problem], [Filesystem], [Precommit]).

    Layout: Python helpers, glob matching and file filtering, the gateway
    monad, the checks, the engine, the command-line front end, and then the
    properties. *)

From stdpp Require Import base decidable list gmap sets strings sorting.
From Stdlib Require Import ZArith Lia Ascii String.
From Stdlib.Strings Require Import Byte.

Local Open Scope string_scope.
Local Open Scope list_scope.

(** ** Python built-ins used by the sources *)

Module Py.

(** [sep.join(l)]. *)
Definition join (sep : string) (l : list string) : string :=
  String.concat sep l.

(** [s.startswith(p)]. *)
Definition startswith (s p : string) : bool := String.prefix p s.

(** [list(s)] for a [str]. *)
Definition chars (s : string) : list ascii := list_ascii_of_string s.

(** Is [needle] a prefix of [hay]? *)
Fixpoint is_prefix {A} (eqb : A -> A -> bool) (needle hay : list A) : bool :=
  match needle, hay with
  | [], _ => true
  | _ :: _, [] => false
  | x :: needle', y :: hay' => eqb x y && is_prefix eqb needle' hay'
  end.

(** [needle in hay] for sequences: a contiguous occurrence. *)
Fixpoint contains {A} (eqb : A -> A -> bool) (needle hay : list A) : bool :=
  is_prefix eqb needle hay
  || match hay with
     | [] => false
     | _ :: hay' => contains eqb needle hay'
     end.

(** [needle in hay] for [str]. *)
Definition str_in (needle hay : string) : bool :=
  contains Ascii.eqb (chars needle) (chars hay).

(** [needle in hay] for [bytes]. *)
Definition bytes_in (needle hay : list byte) : bool :=
  contains Byte.eqb needle hay.

(** [s.encode("ascii")]. *)
Definition encode_ascii (s : string) : list byte := list_byte_of_string s.

(** One byte of [bytes.upper()]: the ASCII letters [a]-[z] move to
    [A]-[Z], every other byte is kept. *)
Definition upper_byte (b : byte) : byte :=
  let n := Byte.to_N b in
  if ((97 <=? n) && (n <=? 122))%N
  then match Byte.of_N (n - 32) with Some b' => b' | None => b end
  else b.

(** [bs.upper()] for [bytes]. *)
Definition upper (bs : list byte) : list byte := List.map upper_byte bs.

(** The code points for which [str.isspace()] holds: the ASCII controls
    9-13 and 28-31, the space, NEL (U+0085), the no-break space (U+00A0),
    and beyond Latin-1 U+1680, U+2000 to U+200A, U+2028, U+2029, U+202F,
    U+205F and U+3000. *)
Definition isspace_code (n : N) : bool :=
  ((9 <=? n) && (n <=? 13) || (28 <=? n) && (n <=? 32)
   || (n =? 133) || (n =? 160) || (n =? 5760)
   || (8192 <=? n) && (n <=? 8202)
   || (n =? 8232) || (n =? 8233) || (n =? 8239) || (n =? 8287)
   || (n =? 12288))%N.

(** [c.isspace()]. A [str] is modelled as a [string] whose characters are
    the code points of the text, which are therefore below 256; of the
    white space above only the first five groups can occur. *)
Definition isspace (c : ascii) : bool := isspace_code (N_of_ascii c).

(** Can [bs.decode("ascii")] decode these bytes? *)
Definition is_ascii (bs : string) : bool :=
  forallb (fun c => (N_of_ascii c <? 128)%N) (list_ascii_of_string bs).

(** [s.lstrip()] on the characters of [s], and [s.strip()]. *)
Fixpoint lstrip_chars (s : list ascii) : list ascii :=
  match s with
  | c :: s' => if isspace c then lstrip_chars s' else s
  | [] => []
  end.

Definition strip (s : string) : string :=
  string_of_list_ascii
    (rev (lstrip_chars (rev (lstrip_chars (list_ascii_of_string s))))).

(** The order of [sorted] on [str]: lexicographic on character codes. *)
Definition str_le (a b : string) : Prop := String.leb a b = true.

#[global] Instance str_le_dec a b : Decision (str_le a b).
Proof. unfold str_le. apply _. Defined.

(** [sorted(l)] for a collection of [str]. *)
Definition sorted (l : list string) : list string := merge_sort str_le l.

(** [s.split("\n")] on the characters of [s], with the line so far in
    [cur] (reversed). *)
Fixpoint split_lines_aux (cur : list ascii) (s : list ascii) : list string :=
  match s with
  | [] => [string_of_list_ascii (rev cur)]
  | c :: s' =>
      if Ascii.eqb c "010"%char (* line feed *)
      then string_of_list_ascii (rev cur) :: split_lines_aux [] s'
      else split_lines_aux (c :: cur) s'
  end.

Definition split_lines (s : string) : list string :=
  split_lines_aux [] (chars s).

(** [str(n)] for a natural number. *)
Definition digit (n : nat) : string :=
  String (ascii_of_nat (48 + n)) EmptyString.

Fixpoint str_of_nat_aux (fuel n : nat) (acc : string) : string :=
  match fuel with
  | O => acc
  | S fuel' =>
      let acc' := digit (n mod 10) +:+ acc in
      match n / 10 with
      | O => acc'
      | q => str_of_nat_aux fuel' q acc'
      end
  end.

Definition str_of_nat (n : nat) : string := str_of_nat_aux (S n) n "".

(** The line feed, and the string holding it. *)
Definition nl_char : ascii := "010"%char.
Definition nl : string := String nl_char EmptyString.

(** Truth value of a list, as in [if l:]. *)
Definition truthy {A} (l : list A) : bool :=
  match l with [] => false | _ :: _ => true end.

End Py.

(** ** Shell-style patterns ([fnmatch])

    [lib.py] is not part of the sources at hand; the matcher follows the
    specification: standard shell-style wildcards ([*], [?], character
    classes) applied to the whole relative path. *)

Module Glob.

Inductive class_item : Type :=
| CChar (c : ascii)
| CRange (lo hi : ascii).

Inductive tok : Type :=
| Star
| AnyChar
| Lit (c : ascii)
| Class (negate : bool) (items : list class_item).

(** The body of a character class, between the brackets and after a
    leading [!]: [a-z] is a range, everything else stands for itself. *)
Fixpoint class_items (body : list ascii) : list class_item :=
  match body with
  | lo :: rest =>
      match rest with
      | dash :: hi :: rest' =>
          if Ascii.eqb dash "-"%char
          then CRange lo hi :: class_items rest'
          else CChar lo :: class_items rest
      | _ => CChar lo :: class_items rest
      end
  | [] => []
  end.

(** Is there a closing bracket ahead? *)
Definition has_bracket (s : list ascii) : bool :=
  existsb (Ascii.eqb "]"%char) s.

(** Does the text after an opening bracket hold a complete class? A [!]
    right after the bracket and a [\]] in first place belong to the body. *)
Definition class_closes (after : list ascii) : bool :=
  let after1 :=
    match after with
    | c :: r => if Ascii.eqb c "!"%char then r else after
    | [] => after
    end in
  let after2 :=
    match after1 with
    | c :: r => if Ascii.eqb c "]"%char then r else after1
    | [] => after1
    end in
  has_bracket after2.

(** Where the tokenizer stands: outside a class, just behind the opening
    bracket, behind the [!], or inside the body (kept reversed). *)
Inductive mode : Type :=
| Outside
| Opened
| Negated
| Inside (negate : bool) (body : list ascii).

(** One pass over the pattern. A bracket opens a class only when the class
    closes further on; otherwise it stands for itself. *)
Fixpoint tokens (m : mode) (pat : list ascii) : list tok :=
  match pat with
  | [] => []
  | c :: pat' =>
      match m with
      | Outside =>
          if Ascii.eqb c "*"%char then Star :: tokens Outside pat'
          else if Ascii.eqb c "?"%char then AnyChar :: tokens Outside pat'
          else if Ascii.eqb c "["%char then
            if class_closes pat' then tokens Opened pat'
            else Lit c :: tokens Outside pat'
          else Lit c :: tokens Outside pat'
      | Opened =>
          if Ascii.eqb c "!"%char then tokens Negated pat'
          else tokens (Inside false [c]) pat'
      | Negated => tokens (Inside true [c]) pat'
      | Inside neg body =>
          if Ascii.eqb c "]"%char
          then Class neg (class_items (rev body)) :: tokens Outside pat'
          else tokens (Inside neg (c :: body)) pat'
      end
  end.

Definition item_accepts (c : ascii) (i : class_item) : bool :=
  match i with
  | CChar x => Ascii.eqb c x
  | CRange lo hi =>
      ((N_of_ascii lo <=? N_of_ascii c) && (N_of_ascii c <=? N_of_ascii hi))%N
  end.

Definition tok_accepts (t : tok) (c : ascii) : bool :=
  match t with
  | Star => true
  | AnyChar => true
  | Lit x => Ascii.eqb c x
  | Class neg items => xorb neg (existsb (item_accepts c) items)
  end.

(** Whole-string match with backtracking on [*]. *)
Fixpoint matches (p : list tok) (s : list ascii) {struct p} : bool :=
  match p with
  | [] => match s with [] => true | _ :: _ => false end
  | Star :: p' =>
      (fix star (s : list ascii) : bool :=
         matches p' s
         || match s with
            | [] => false
            | _ :: s' => star s'
            end) s
  | t :: p' =>
      match s with
      | [] => false
      | c :: s' => tok_accepts t c && matches p' s'
      end
  end.

(** [fnmatch.fnmatch(name, pat)] on a system whose paths are case
    sensitive. *)
Definition fnmatch (name pat : string) : bool :=
  matches (tokens Outside (Py.chars pat)) (Py.chars name).

End Glob.

(** ** [BaseCheck]: the filter every check carries *)

Module BaseCheck.

(** The attributes [BaseCheck.__init__] stores. *)
Record t : Type := {
  slow : bool;
  include : list string;
  exclude : list string
}.

(** Modelled from the spec: [BaseCheck.__init__] and [BaseCheck.filter]
    live in [lib.py], which is missing. An empty include list is
    treated as [["*"]]; an empty exclude list excludes nothing. *)
Definition include_patterns (self : t) : list string :=
  match include self with
  | [] => ["*"]
  | pats => pats
  end.

Definition matches_any (path : string) (pats : list string) : bool :=
  existsb (Glob.fnmatch path) pats.

Definition keeps (self : t) (path : string) : bool :=
  matches_any path (include_patterns self)
  && negb (matches_any path (exclude self)).

(** Modelled from the spec: [BaseCheck.filter(paths)] from the missing
    [lib.py]: the paths that match an include pattern and no exclude
    pattern, in their order. *)
Definition filter (self : t) (paths : list string) : list string :=
  List.filter (keeps self) paths.

Definition default : t := {| slow := false; include := []; exclude := [] |}.

End BaseCheck.

(** ** Exceptions, the world outside and the gateway monad *)

Inductive exn : Type :=
| UsageError (msg : string)
| OSError (what : string)
| KeyError (key : string)
| UnicodeDecodeError (text : string)
| SyntaxError (what : string)
| SystemExit (code : Z).

Inductive outcome (A : Type) : Type :=
| Returned (a : A)
| Raised (e : exn).

Arguments Returned {A} a.
Arguments Raised {A} e.

(** What a run leaves behind: every command handed to [Filesystem.run], as
    [MockFilesystem.commands_run] records them, and the lines printed on the
    console, as [MockConsole.captured_output] collects them. *)
Record World : Type := {
  commands_run : list (list string);
  captured_output : list string
}.

Definition empty_world : World :=
  {| commands_run := []; captured_output := [] |}.

(** Effectful code over a state [S]: it may change the state, and it either
    returns or raises. *)
Definition Eff (S A : Type) : Type := S -> outcome A * S.

Definition ret {S A} (a : A) : Eff S A := fun s => (Returned a, s).

Definition raise {S A} (e : exn) : Eff S A := fun s => (Raised e, s).

Definition bind {S A B} (c : Eff S A) (k : A -> Eff S B) : Eff S B :=
  fun s =>
    match c s with
    | (Returned a, s') => k a s'
    | (Raised e, s') => (Raised e, s')
    end.

Notation "'let*' x ':=' c 'in' k" := (bind c (fun x => k))
  (at level 10, x name, c at level 100, k at level 200).

(** [for x in l: acc = body(x, acc)], stopping at the first exception. *)
Fixpoint for_each {S A B} (l : list A) (body : A -> B -> Eff S B) (acc : B)
  : Eff S B :=
  match l with
  | [] => ret acc
  | x :: l' => let* acc' := body x acc in for_each l' body acc'
  end.

(** Code that talks to the gateway. *)
Definition Action (A : Type) : Type := Eff World A.

Module Console.

(** [console.print(line)]. *)
Definition print (line : string) : Action unit :=
  fun w =>
    (Returned tt,
     {| commands_run := commands_run w;
        captured_output := captured_output w ++ [line] |}).

Definition print_lines (lines : list string) : Action unit :=
  for_each lines (fun line _ => print line) tt.

End Console.

(** The result of [subprocess.run]. *)
Record CompletedProcess : Type := { returncode : Z }.

(** The gateway to the file system, to git and to external processes. The
    class is declared in the missing [lib.py]; its behaviour is what
    [MockFilesystem] of [tests.py] overrides: what a command does when it is
    run (its exit status and the lines it prints, or no launch at all), what
    a file holds, and the three file lists of git. *)
Record Filesystem : Type := {
  run_result : list string -> World -> option (Z * list string);
  file_bytes : string -> World -> option (list byte);
  get_staged_files : World -> list string;
  get_staged_for_deletion_files : World -> list string;
  get_unstaged_files : World -> list string
}.

Module Fs.

(** The margin every line printed through the gateway gets. *)
Definition margin : string := "|  ".

(** [fs.print(msg)]: each line of the message, behind the margin. *)
Definition print (fs : Filesystem) (msg : string) : Action unit :=
  Console.print_lines (List.map (fun l => margin +:+ l) (Py.split_lines msg)).

Definition record_command (cmd : list string) : Action unit :=
  fun w =>
    (Returned tt,
     {| commands_run := commands_run w ++ [cmd];
        captured_output := captured_output w |}).

(** [fs.run(cmd, capture_output=False)]: the command is recorded, then
    either it cannot be launched, or it prints and exits. *)
Definition run (fs : Filesystem) (cmd : list string)
  : Action CompletedProcess :=
  fun w =>
    match run_result fs cmd w with
    | None =>
        (let* _ := record_command cmd in
         raise (OSError (Py.join " " cmd))) w
    | Some (rc, out) =>
        (let* _ := record_command cmd in
         let* _ := for_each out (fun line _ => print fs line) tt in
         ret {| returncode := rc |}) w
    end.

(** [fs.open(path, "rb")] followed by [f.read()]. *)
Definition open_read (fs : Filesystem) (path : string)
  : Action (list byte) :=
  fun w =>
    match file_bytes fs path w with
    | None => (Raised (OSError path), w)
    | Some content => (Returned content, w)
    end.

End Fs.

(** ** [Problem] and the repository view *)

(** An autofix is a command line or a callable without arguments. *)
Inductive autofix_action : Type :=
| AutofixCommand (cmd : list string)
| AutofixCallable (call : Action unit).

Record Problem : Type := {
  message : option string;
  autofix : option autofix_action
}.

Record Repository : Type := {
  staged : list string;
  staged_for_deletion : list string;
  unstaged : list string
}.

(** ** checks.py *)

Module NoStagedAndUnstagedChanges.

(** [set(repository.staged).intersection(set(repository.unstaged))]. *)
Definition both (repository : Repository) : gset string :=
  list_to_set (staged repository) ∩ list_to_set (unstaged repository).

(** [list(both)]: Python fixes no order for the elements of a set; the
    properties below use none. *)
Definition check (self : BaseCheck.t) (fs : Filesystem)
    (repository : Repository) : Action (option Problem) :=
  let both := both repository in
  if bool_decide (both ≠ ∅) then
    let message := Py.join Py.nl (Py.sorted (elements both)) in
    let* _ := Fs.print fs message in
    ret (Some {| message := None;
                 autofix := Some (AutofixCommand
                                    (["git"; "add"] ++ elements both)) |})
  else ret None.

Definition is_fixable (self : BaseCheck.t) : bool := true.

End NoStagedAndUnstagedChanges.

(** Built from two pieces in the source, so that the literal does not
    trigger the check itself. *)
Definition DO_NOT_SUBMIT : string := "DO NOT " +:+ "SUBMIT".

Module DoNotSubmit.

Definition flagged (content : list byte) : bool :=
  Py.bytes_in (Py.encode_ascii DO_NOT_SUBMIT) (Py.upper content).

Definition scan (fs : Filesystem) (paths : list string)
  : Action (list string) :=
  for_each paths
    (fun path bad_paths =>
       let* content := Fs.open_read fs path in
       if flagged content
       then ret (bad_paths ++ [path])
       else ret bad_paths)
    [].

Definition check (self : BaseCheck.t) (fs : Filesystem)
    (repository : Repository) : Action (option Problem) :=
  let* bad_paths := scan fs (BaseCheck.filter self (staged repository)) in
  if Py.truthy bad_paths then
    let message := Py.join Py.nl (Py.sorted bad_paths) in
    let* _ := Fs.print fs message in
    ret (Some {| message := Some ("file contains '" +:+ DO_NOT_SUBMIT +:+ "'");
                 autofix := None |})
  else ret None.

End DoNotSubmit.

Module NoWhitespaceInFilePath.

Definition has_space (path : string) : bool :=
  existsb Py.isspace (Py.chars path).

Definition check (self : BaseCheck.t) (fs : Filesystem)
    (repository : Repository) : Action (option Problem) :=
  let bad_paths :=
    List.filter has_space (BaseCheck.filter self (staged repository)) in
  if Py.truthy bad_paths then
    let message := Py.join Py.nl (Py.sorted bad_paths) in
    let* _ := Fs.print fs message in
    ret (Some {| message := Some "file path contains whitespace";
                 autofix := None |})
  else ret None.

End NoWhitespaceInFilePath.

Module Command.

Record t : Type := {
  base : BaseCheck.t;
  name : string;
  cmd : list string;
  fix_ : option (list string);
  pass_files : bool;
  separately : bool
}.

(** [Command.__init__]; [kwargs] is what [BaseCheck.__init__] receives. *)
Definition init (name : string) (cmd : list string)
    (fix_ : option (list string)) (pass_files separately : bool)
    (kwargs : BaseCheck.t) : outcome t :=
  if separately && negb pass_files then
    Raised (UsageError
              "if `separately` is True, `pass_files` must also be True")
  else
    Returned {| base := kwargs; name := name; cmd := cmd; fix_ := fix_;
                pass_files := pass_files; separately := separately |}.

Definition nonzero (r : CompletedProcess) : bool :=
  negb (returncode r =? 0)%Z.

(** The loop of the [separately] branch. *)
Definition run_each (self : t) (fs : Filesystem) (paths : list string)
  : Action bool :=
  for_each paths
    (fun path problem =>
       let* r := Fs.run fs (cmd self ++ [path]) in
       if nonzero r then ret true else ret problem)
    false.

Definition check (self : t) (fs : Filesystem) (repository : Repository)
  : Action (option Problem) :=
  if separately self then
    let* problem :=
      run_each self fs (BaseCheck.filter (base self) (staged repository)) in
    if problem then
      ret (Some {| message := None;
                   autofix := option_map AutofixCommand (fix_ self) |})
    else ret None
  else
    let args :=
      if pass_files self
      then BaseCheck.filter (base self) (staged repository)
      else [] in
    let cmd := cmd self ++ args in
    let* r := Fs.run fs cmd in
    if nonzero r then
      let autofix :=
        match fix_ self with
        | Some f =>
            if Py.truthy f then Some (AutofixCommand (f ++ args)) else None
        | None => None
        end in
      ret (Some {| message := None; autofix := autofix |})
    else ret None.

Definition get_name (self : t) : string := name self.

Definition is_fixable (self : t) : bool :=
  match fix_ self with Some _ => true | None => false end.

End Command.

(** The keyword arguments of a call to a factory, for the calls that give
    no other keyword than [separately], [slow] and [exclude]. A call that
    also gives [fix], [pass_files], [name] or [cmd] is not covered by this
    record: Python raises [TypeError] where the factory sets the same
    argument itself, and [PythonLint] and [PythonTypes] take a [fix]. *)
Record Kwargs : Type := {
  kw_separately : bool;
  kw_slow : bool;
  kw_exclude : list string
}.

Definition no_kwargs : Kwargs :=
  {| kw_separately := false; kw_slow := false; kw_exclude := [] |}.

Definition base_of (include : list string) (kwargs : Kwargs) : BaseCheck.t :=
  {| BaseCheck.slow := kw_slow kwargs;
     BaseCheck.include := include;
     BaseCheck.exclude := kw_exclude kwargs |}.

Definition PythonFormat (args include : list string) (kwargs : Kwargs)
  : outcome Command.t :=
  Command.init "PythonFormat" (["black"; "--check"] ++ args)
    (Some (["black"] ++ args)) true (kw_separately kwargs)
    (base_of (["*.py"] ++ include) kwargs).

Definition PythonLint (args include : list string) (kwargs : Kwargs)
  : outcome Command.t :=
  Command.init "PythonLint" (["flake8"; "--max-line-length=88"] ++ args)
    None true (kw_separately kwargs)
    (base_of (["*.py"] ++ include) kwargs).

Definition PythonImportOrder (args include : list string) (kwargs : Kwargs)
  : outcome Command.t :=
  Command.init "PythonImportOrder" (["isort"; "-c"] ++ args)
    (Some (["isort"] ++ args)) true (kw_separately kwargs)
    (base_of (["*.py"] ++ include) kwargs).

Definition PythonTypes (args include : list string) (kwargs : Kwargs)
  : outcome Command.t :=
  Command.init "PythonTypes" (["mypy"] ++ args)
    None true (kw_separately kwargs)
    (base_of (["*.py"] ++ include) kwargs).

Definition JavaScriptLint (include : list string) (kwargs : Kwargs)
  : outcome Command.t :=
  Command.init "JavaScriptLint" ["npx"; "eslint"]
    (Some ["npx"; "eslint"; "--fix"]) true (kw_separately kwargs)
    (base_of (["*.js"] ++ include) kwargs).

Definition RustFormat (args include : list string) (kwargs : Kwargs)
  : outcome Command.t :=
  Command.init "RustFormat" (["cargo"; "fmt"; "--"; "--check"] ++ args)
    (Some (["cargo"; "fmt"; "--"] ++ args)) true (kw_separately kwargs)
    (base_of (["*.rs"] ++ include) kwargs).

(** ** The engine ([lib.py]) *)

(** A registered check, as the engine sees it: its name, whether it is
    fixable, whether it is slow, and its [check] method. *)
Record Checker : Type := {
  get_name : string;
  is_fixable : bool;
  is_slow : bool;
  check : Filesystem -> Repository -> Action (option Problem)
}.

Definition checker_NoStagedAndUnstagedChanges (self : BaseCheck.t) : Checker :=
  {| get_name := "NoStagedAndUnstagedChanges";
     is_fixable := NoStagedAndUnstagedChanges.is_fixable self;
     is_slow := BaseCheck.slow self;
     check := NoStagedAndUnstagedChanges.check self |}.

Definition checker_DoNotSubmit (self : BaseCheck.t) : Checker :=
  {| get_name := "DoNotSubmit";
     is_fixable := false;
     is_slow := BaseCheck.slow self;
     check := DoNotSubmit.check self |}.

Definition checker_NoWhitespaceInFilePath (self : BaseCheck.t) : Checker :=
  {| get_name := "NoWhitespaceInFilePath";
     is_fixable := false;
     is_slow := BaseCheck.slow self;
     check := NoWhitespaceInFilePath.check self |}.

Definition checker_Command (self : Command.t) : Checker :=
  {| get_name := Command.get_name self;
     is_fixable := Command.is_fixable self;
     is_slow := BaseCheck.slow (Command.base self);
     check := Command.check self |}.

Module Checklist.

(** Modelled from the spec: [Checklist.check(c)] of the missing [lib.py]
    appends [c] to the ordered list of registered checks. *)
Definition register (c : Checker) (checks : list Checker) : list Checker :=
  checks ++ [c].

End Checklist.

Module Precommit.

Record t : Type := {
  checks : list Checker;
  fs : Filesystem;
  check_all : bool;
  dry_run : bool;
  verbose : bool
}.

(** The counters of one run. *)
Record Counters : Type := {
  checksRun : nat;
  fixableChecksRun : nat;
  problemsFound : nat;
  fixableCount : nat;
  problemsFixed : nat
}.

Definition zero : Counters :=
  {| checksRun := 0; fixableChecksRun := 0; problemsFound := 0;
     fixableCount := 0; problemsFixed := 0 |}.

(** [c.check(fs, repository)]. *)
Definition invoke (c : Checker) : Filesystem -> Repository -> Action (option Problem) :=
  check c.

Definition header (c : Checker) : string := "o--[ " +:+ get_name c +:+ " ]".

Definition footer (status : string) : string := "o--[ " +:+ status +:+ " ]".

(** Modelled from the spec: the three file lists are read once, when the
    run starts. *)
Definition get_repository (self : t) : Action Repository :=
  fun w =>
    (Returned {| staged := get_staged_files (fs self) w;
                 staged_for_deletion :=
                   get_staged_for_deletion_files (fs self) w;
                 unstaged := get_unstaged_files (fs self) w |}, w).

(** Modelled from the spec: a slow check runs only when [checkAll] is
    set. *)
Definition should_run (self : t) (c : Checker) : bool :=
  check_all self || negb (is_slow c).

(** Is the autofix of a problem there and not empty? *)
Definition has_autofix (p : Problem) : bool :=
  match autofix p with
  | Some (AutofixCommand cmd) => Py.truthy cmd
  | Some (AutofixCallable _) => true
  | None => false
  end.

(** The message of a problem is printed in a verbose run only:
    [test_check_command] of [tests.py] expects no message line under
    [DoNotSubmit], whose problem has one. *)
Definition print_message (self : t) (p : Problem) : Action unit :=
  match message p with
  | Some msg => if verbose self then Fs.print (fs self) msg else ret tt
  | None => ret tt
  end.

(** Modelled from the spec: one step of [check_mode] (4.3, steps 1 to 5). *)
Definition check_one (self : t) (repository : Repository) (c : Checker)
    (n : Counters) : Action Counters :=
  if should_run self c then
    let* _ := Console.print (header c) in
    let* result := invoke c (fs self) repository in
    let* n' :=
      match result with
      | Some p =>
          let* _ := print_message self p in
          let* _ := Console.print (footer "failed!") in
          ret {| checksRun := checksRun n;
                 fixableChecksRun := fixableChecksRun n;
                 problemsFound := S (problemsFound n);
                 fixableCount :=
                   if is_fixable c && has_autofix p
                   then S (fixableCount n) else fixableCount n;
                 problemsFixed := problemsFixed n |}
      | None =>
          let* _ := Console.print (footer "passed!") in
          ret n
      end in
    let* _ := Console.print "" in
    ret {| checksRun := S (checksRun n');
           fixableChecksRun := fixableChecksRun n';
           problemsFound := problemsFound n';
           fixableCount := fixableCount n';
           problemsFixed := problemsFixed n' |}
  else ret n.

Definition check_summary (n : Counters) : string :=
  "Ran " +:+ Py.str_of_nat (checksRun n) +:+ " checks. Detected "
  +:+ Py.str_of_nat (problemsFound n) +:+ " issues."
  +:+ (if (0 <? fixableCount n)%nat
       then " Fix " +:+ Py.str_of_nat (fixableCount n)
            +:+ " of them with 'precommit fix'."
       else "").

(** Modelled from the spec: [Precommit.check] of the missing [lib.py]
    (4.3, [check_mode]); it returns whether [problemsFound > 0]. The
    counters are returned along, for the properties. *)
Definition check_counting (self : t) : Action Counters :=
  let* repository := get_repository self in
  let* n := for_each (checks self) (check_one self repository) zero in
  let* _ := Console.print "" in
  let* _ := Console.print (check_summary n) in
  ret n.

Definition check (self : t) : Action bool :=
  let* n := check_counting self in
  ret (0 <? problemsFound n)%nat.

(** What a check printed is held back until the engine knows whether the
    check enters the report: the check runs on an empty console and its
    lines are returned. *)
Definition captured {A} (c : Action A) : Action (A * list string) :=
  fun w =>
    let blank := {| commands_run := commands_run w; captured_output := [] |} in
    match c blank with
    | (Returned a, w') =>
        (Returned (a, captured_output w'),
         {| commands_run := commands_run w';
            captured_output := captured_output w |})
    | (Raised e, w') =>
        (Raised e,
         {| commands_run := commands_run w';
            captured_output := captured_output w ++ captured_output w' |})
    end.

(** Carrying out an autofix: run the command, or call the callable. *)
Definition apply_autofix (self : t) (a : autofix_action) : Action unit :=
  match a with
  | AutofixCommand cmd => let* _ := Fs.run (fs self) cmd in ret tt
  | AutofixCallable call => call
  end.

Definition count_fixable (c : Checker) (n : Counters) : Counters :=
  {| checksRun := S (checksRun n);
     fixableChecksRun :=
       if is_fixable c then S (fixableChecksRun n) else fixableChecksRun n;
     problemsFound := problemsFound n;
     fixableCount := fixableCount n;
     problemsFixed := problemsFixed n |}.

Definition count_fixed (n : Counters) : Counters :=
  {| checksRun := checksRun n;
     fixableChecksRun := fixableChecksRun n;
     problemsFound := S (problemsFound n);
     fixableCount := S (fixableCount n);
     problemsFixed := S (problemsFixed n) |}.

(** Does this result of [check] enter the fix report? *)
Definition reported (c : Checker) (result : option Problem) : bool :=
  match result with
  | Some p => is_fixable c && has_autofix p
  | None => false
  end.

(** Modelled from the spec: one step of [fix_mode] (4.3, steps 1 to 4). *)
Definition fix_one (self : t) (repository : Repository) (c : Checker)
    (n : Counters) : Action Counters :=
  if should_run self c then
    let* run := captured (invoke c (fs self) repository) in
    let result := fst run in
    let n' := count_fixable c n in
    match result with
    | Some p =>
        if is_fixable c && has_autofix p then
          let* _ := Console.print (header c) in
          let* _ := Console.print_lines (snd run) in
          let* _ := print_message self p in
          let* _ :=
            match autofix p with
            | Some a => if dry_run self then ret tt else apply_autofix self a
            | None => ret tt
            end in
          let* _ :=
            Console.print
              (footer (if dry_run self then "would fix!" else "fixed!")) in
          let* _ := Console.print "" in
          ret (count_fixed n')
        else ret n'
    | None => ret n'
    end
  else ret n.

Definition mem (x : string) (l : list string) : bool :=
  existsb (String.eqb x) l.

(** Modelled from the spec: the files of the final re-stage: the
    originally staged files, then the originally unstaged ones not among
    them, without the files staged for deletion. *)
Definition restage_files (repository : Repository) : list string :=
  List.filter
    (fun path => negb (mem path (staged_for_deletion repository)))
    (staged repository
     ++ List.filter (fun path => negb (mem path (staged repository)))
          (unstaged repository)).

Definition restage (self : t) (repository : Repository) (n : Counters)
  : Action unit :=
  if (0 <? problemsFixed n)%nat && negb (dry_run self) then
    let* _ := Fs.run (fs self) (["git"; "add"] ++ restage_files repository) in
    ret tt
  else ret tt.

Definition fix_summary (n : Counters) : string :=
  "Ran " +:+ Py.str_of_nat (fixableChecksRun n)
  +:+ " fixable checks. Detected " +:+ Py.str_of_nat (problemsFound n)
  +:+ " issues. Fixed " +:+ Py.str_of_nat (problemsFixed n) +:+ " of them.".

(** Modelled from the spec: [Precommit.fix] of the missing [lib.py] (4.3,
    [fix_mode]). The counters are returned along, for the properties. *)
Definition fix_counting (self : t) : Action Counters :=
  let* repository := get_repository self in
  let* n := for_each (checks self) (fix_one self repository) zero in
  let* _ := restage self repository n in
  let* _ := Console.print "" in
  let* _ := Console.print (fix_summary n) in
  ret n.

Definition fix_ (self : t) : Action unit :=
  let* _ := fix_counting self in
  ret tt.

End Precommit.

(** ** The doubles of tests.py *)

Module Mock.

Definition head_is (cmd : list string) (a b : string) : bool :=
  match cmd with
  | x :: y :: _ => String.eqb x a && String.eqb y b
  | _ => false
  end.

(** [MockFilesystem]: every command fails with status 1, [black --check]
    prints one line, every file holds the forbidden text. *)
Definition MockFilesystem : Filesystem :=
  {| run_result := fun cmd _ =>
       Some (1%Z,
             if head_is cmd "black" "--check"
             then ["<failed output of black command>"]
             else []);
     file_bytes := fun _ _ =>
       Some (Py.encode_ascii "DO NOT" ++ Py.encode_ascii " SUBMIT");
     get_staged_files := fun _ => ["main.py"; "ignoreme.py"];
     get_staged_for_deletion_files := fun _ => [];
     get_unstaged_files := fun _ => ["main.py"] |}.

Definition unwrap (c : outcome Command.t) : list Checker :=
  match c with
  | Returned c => [checker_Command c]
  | Raised _ => []
  end.

(** The checklist of [Test.setUp]. *)
Definition checklist : list Checker :=
  [checker_DoNotSubmit BaseCheck.default;
   checker_NoStagedAndUnstagedChanges BaseCheck.default;
   checker_NoWhitespaceInFilePath BaseCheck.default]
  ++ unwrap (PythonFormat [] []
               {| kw_separately := false; kw_slow := false;
                  kw_exclude := ["ignoreme.py"] |}).

Definition precommit : Precommit.t :=
  {| Precommit.checks := checklist;
     Precommit.fs := MockFilesystem;
     Precommit.check_all := true;
     Precommit.dry_run := false;
     Precommit.verbose := false |}.

(** A gateway whose commands exit with the status a table gives (0 when
    the table is silent) and print nothing, over the same files. *)
Definition scripted (table : list (list string * Z))
    (files : list (string * list byte)) (s d u : list string) : Filesystem :=
  {| run_result := fun cmd _ =>
       Some (match List.find (fun e => bool_decide (fst e = cmd)) table with
             | Some e => snd e
             | None => 0%Z
             end, []);
     file_bytes := fun path _ =>
       match List.find (fun e => String.eqb (fst e) path) files with
       | Some e => Some (snd e)
       | None => None
       end;
     get_staged_files := fun _ => s;
     get_staged_for_deletion_files := fun _ => d;
     get_unstaged_files := fun _ => u |}.

End Mock.

(** ** main.py: the command-line front end *)

(** What the front end does besides driving the engine. *)
Inductive event : Type :=
| EvColors (on : bool)
| EvStderr (line : string)
| EvStdout (text : string)
| EvChdir (path : string)
| EvLoadConfig (path : string)
| EvWriteFile (path content : string)
| EvChmod (path : string) (mode : N).

(** The calls to the operating system that may fail. *)
Inductive os_call : Type :=
| Chdir (path : string)
| OpenWrite (path : string)
| Stat (path : string)
| Chmod (path : string).

(** The state of the process: what the front end did so far, and the world
    of the gateway. *)
Record Proc : Type := {
  events : list event;
  world : World
}.

Definition initial_proc : Proc := {| events := []; world := empty_world |}.

(** What the process finds when it starts: its arguments; the environment;
    the bytes that [git rev-parse --show-toplevel] writes on its standard
    output when it exits with status 0 ([None] for another status; git
    itself can be launched); which paths exist; the exception a call to the
    operating system raises, if any; the mode [os.stat] reports for a file;
    what loading [precommit.py] gives; and the gateway. For [precommit_py],
    [None] stands for a load that raises [FileNotFoundError] or
    [ImportError], the two exceptions [get_precommit] catches; otherwise the
    function is the execution of the module followed by its [init], which
    returns the checklist or raises (a [SyntaxError] in the file, an
    exception in [init]). *)
Record Env : Type := {
  sys_argv : list string;
  environ_NO_COLOR : bool;
  stdout_isatty : bool;
  git_toplevel : option string;
  path_exists : string -> bool;
  os_error : os_call -> option exn;
  st_mode : string -> N;
  precommit_py : option (list Checker -> outcome (list Checker));
  filesystem : Filesystem
}.

Module Dict.

(** A Python [dict] with [str] keys: keys are unique and keep the order in
    which they were first set. *)
Definition t (V : Type) : Type := list (string * V).

Fixpoint get {V} (k : string) (d : t V) : option V :=
  match d with
  | [] => None
  | (k', v) :: d' => if String.eqb k k' then Some v else get k d'
  end.

Definition has {V} (k : string) (d : t V) : bool :=
  match get k d with Some _ => true | None => false end.

Fixpoint set {V} (k : string) (v : V) (d : t V) : t V :=
  match d with
  | [] => [(k, v)]
  | (k', v') :: d' =>
      if String.eqb k k' then (k, v) :: d' else (k', v') :: set k v d'
  end.

Definition keys {V} (d : t V) : list string := List.map fst d.

End Dict.

Module Main.

Definition Front (A : Type) : Type := Eff Proc A.

Definition emit (e : event) : Front unit :=
  fun p => (Returned tt, {| events := events p ++ [e]; world := world p |}).

Definition lift {A} (c : Action A) : Front A :=
  fun p =>
    match c (world p) with
    | (o, w') => (o, {| events := events p; world := w' |})
    end.

(** [error(message)]: one line on standard error, then [sys.exit(1)]. *)
Definition error {A} (message : string) : Front A :=
  let* _ := emit (EvStderr ("Error: " +:+ message)) in
  raise (SystemExit 1).

Definition SUBCOMMANDS : list string := ["init"; "fix"; "help"; "check"].

Definition SHORT_FLAGS : Dict.t string :=
  [("-f", "--force"); ("-h", "--help")].

Definition FLAGS : Dict.t (list string) :=
  [("--color", []);
   ("--no-color", []);
   ("--help", []);
   ("--verbose", ["fix"; "check"]);
   ("--all", ["fix"; "check"]);
   ("--force", ["init"]);
   ("--dry-run", ["fix"])].

Record Args : Type := {
  subcommand : string;
  positional : list string;
  flags : Dict.t bool
}.

(** The loop of [parse_args]. *)
Fixpoint parse_loop (argv : list string) (force_positional : bool)
    (positional : list string) (flags : Dict.t bool)
  : list string * Dict.t bool :=
  match argv with
  | [] => (positional, flags)
  | arg :: rest =>
      if String.eqb arg "--" then parse_loop rest true positional flags
      else if negb force_positional && Py.startswith arg "-" then
        match Dict.get arg SHORT_FLAGS with
        | Some long =>
            parse_loop rest force_positional positional
              (Dict.set long true flags)
        | None =>
            parse_loop rest force_positional positional
              (Dict.set arg true flags)
        end
      else parse_loop rest force_positional (positional ++ [arg]) flags
  end.

(** [parse_args(args)]: the loop reads [sys.argv[1:]], not its
    parameter. *)
Definition parse_args (env : Env) (args : list string) : Args :=
  let parsed := parse_loop (tl (sys_argv env)) false [] [] in
  match fst parsed with
  | sub :: rest =>
      {| subcommand := sub; positional := rest; flags := snd parsed |}
  | [] =>
      {| subcommand := "check"; positional := []; flags := snd parsed |}
  end.

Definition mem (x : string) (l : list string) : bool :=
  existsb (String.eqb x) l.

(** The loop of [check_args] over the flags, in the order of the dict. *)
Fixpoint check_flags (sub : string) (keys : list string) : option string :=
  match keys with
  | [] => None
  | flag :: rest =>
      match Dict.get flag FLAGS with
      | None => Some ("unknown flag: " +:+ flag)
      | Some valid_subcommands =>
          if Py.truthy valid_subcommands && negb (mem sub valid_subcommands)
          then Some ("flag " +:+ flag +:+ " not valid for " +:+ sub
                     +:+ " subcommand")
          else check_flags sub rest
      end
  end.

Definition check_args (args : Args) : option string :=
  if (0 <? List.length (positional args))%nat then
    Some "precommit does not take positional arguments"
  else if negb (mem (subcommand args) SUBCOMMANDS) then
    Some ("unknown subcommand: " +:+ subcommand args)
  else if Dict.has "--no-color" (flags args)
          && Dict.has "--color" (flags args) then
    Some "--color and --no-color are incompatible"
  else check_flags (subcommand args) (Dict.keys (flags args)).

(** [args.flags[flag]]. *)
Definition flag (args : Args) (k : string) : Front bool :=
  match Dict.get k (flags args) with
  | Some b => ret b
  | None => raise (KeyError k)
  end.

Definition fill_defaults (d : Dict.t bool) : Dict.t bool :=
  fold_left
    (fun d flag => if Dict.has flag d then d else Dict.set flag false d)
    (Dict.keys FLAGS) d.

(** Truth value of a [str]. *)
Definition str_truthy (s : string) : bool :=
  match s with EmptyString => false | String _ _ => true end.

Definition handle_args (env : Env) (args : list string) : Front Args :=
  let* _ :=
    if environ_NO_COLOR env && negb (stdout_isatty env)
    then emit (EvColors false) else ret tt in
  let args := parse_args env args in
  let* _ :=
    match check_args args with
    | Some errormsg =>
        if str_truthy errormsg then error errormsg else ret tt
    | None => ret tt
    end in
  let args :=
    {| subcommand := subcommand args; positional := positional args;
       flags := fill_defaults (flags args) |} in
  let* color := flag args "--color" in
  let* _ :=
    if color then emit (EvColors true)
    else
      let* no_color := flag args "--no-color" in
      if no_color then emit (EvColors false) else ret tt in
  ret args.

(** A call to the operating system: it raises, or it happens. *)
Definition os (env : Env) (call : os_call) (e : list event) : Front unit :=
  match os_error env call with
  | Some ex => raise ex
  | None =>
      fun p => (Returned tt, {| events := events p ++ e; world := world p |})
  end.

(** [gitroot.stdout.decode("ascii").strip()], when the bytes are ASCII. *)
Definition decoded_root (stdout : string) : string := Py.strip stdout.

Definition chdir_to_git_root (env : Env) : Front unit :=
  match git_toplevel env with
  | None => error "must be in git repository."
  | Some stdout =>
      if Py.is_ascii stdout
      then os env (Chdir (decoded_root stdout))
             [EvChdir (decoded_root stdout)]
      else raise (UnicodeDecodeError stdout)
  end.

(** [os.getcwd()] once [chdir_to_git_root] is through. *)
Definition getcwd (env : Env) : string :=
  match git_toplevel env with
  | Some stdout => decoded_root stdout
  | None => ""
  end.

(** [os.path.join(a, b)] for a relative [b]. *)
Definition path_join (a b : string) : string :=
  if String.eqb a "" then b
  else if Py.str_in "/" (String.substring (String.length a - 1) 1 a)
  then a +:+ b
  else a +:+ "/" +:+ b.

(** Modelled from the spec: [Precommit.from_args] of the missing
    [lib.py] reads the run configuration off the flags. *)
Definition from_args (env : Env) (checks : list Checker) (args : Args)
  : Front Precommit.t :=
  let* all := flag args "--all" in
  let* dry := flag args "--dry-run" in
  let* verb := flag args "--verbose" in
  ret {| Precommit.checks := checks;
         Precommit.fs := filesystem env;
         Precommit.check_all := all;
         Precommit.dry_run := dry;
         Precommit.verbose := verb |}.

(** [get_precommit]: the [try] catches [FileNotFoundError] and
    [ImportError] only, which is the case [None] of [precommit_py]. Any
    other exception of the load, and any exception of [init], leaves
    [get_precommit] as it is. *)
Definition get_precommit (env : Env) (args : Args) : Front Precommit.t :=
  let path := path_join (getcwd env) "precommit.py" in
  match precommit_py env with
  | None =>
      error
        "could not find precommit.py. You can create it with 'precommit init'."
  | Some load =>
      let* _ := emit (EvLoadConfig path) in
      match load [] with
      | Raised e => raise e
      | Returned checks => from_args env checks args
      end
  end.

Definition main_fix (env : Env) (args : Args) : Front unit :=
  let* precommit := get_precommit env args in
  lift (Precommit.fix_ precommit).

Definition main_check (env : Env) (args : Args) : Front unit :=
  let* precommit := get_precommit env args in
  let* found_problems := lift (Precommit.check precommit) in
  if found_problems then raise (SystemExit 1) else ret tt.

Definition dq : string := String (ascii_of_nat 34) EmptyString.

Definition PRECOMMIT : string :=
  dq +:+ dq +:+ dq +:+ "Pre-commit configuration for git.

This file was created by precommit (https://github.com/iafisher/precommit).
You are welcome to edit it yourself to customize your pre-commit hook.
" +:+ dq +:+ dq +:+ dq +:+ "
from precommitlib import checks


def init(precommit):
    precommit.check(checks.NoStagedAndUnstagedChanges())
    precommit.check(checks.NoWhitespaceInFilePath())
    precommit.check(checks.DoNotSubmit())

    # Check Python format with black.
    precommit.check(checks.PythonFormat())

    # Lint Python code with flake8.
    precommit.check(checks.PythonLint())

    # Check the order of Python imports with isort.
    precommit.check(checks.PythonImportOrder())

    # Check Python static type annotations with mypy.
    precommit.check(checks.PythonTypes())

    # Lint JavaScript code with ESLint.
    precommit.check(checks.JavaScriptLint())
".

Definition HELP : string :=
  "precommit: simple git pre-commit hook management.

Usage: precommit [flags] [subcommand]

Subcommands:
    If left blank, subcommand defaults to 'check'.

    check           Check for precommit failures.
    fix             Apply any available fixes for problems that 'check' finds.
    init            Initialize
    help            Display a help message and exit.

Flags:
    --all           Run all pre-commit checks, including slow ones.
    --color         Turn on colorized output, overriding any environment settings.
    --no-color      Turn off colorized output.
    --verbose       Emit verbose output.
    -h, --help      Display a help message and exit.

Written by Ian Fisher. http://github.com/iafisher/precommit".

Definition main_help (env : Env) (args : Args) : Front unit :=
  emit (EvStdout HELP).

(** [main_init]: the two files are opened for writing one after the
    other, so that a failure on the hook (a missing [.git/hooks]) leaves
    [precommit.py] written. *)
Definition main_init (env : Env) (args : Args) : Front unit :=
  let* force := flag args "--force" in
  let* _ :=
    if negb force && path_exists env "precommit.py"
    then error
           "precommit.py already exists. Re-run with --force to overwrite it."
    else ret tt in
  let hookpath := path_join (path_join ".git" "hooks") "pre-commit" in
  let* _ :=
    if negb force && path_exists env hookpath
    then error
           (hookpath
            +:+ " already exists. Re-run with --force to overwrite it.")
    else ret tt in
  let* _ :=
    os env (OpenWrite "precommit.py")
      [EvWriteFile "precommit.py" PRECOMMIT] in
  let* _ :=
    os env (OpenWrite hookpath)
      [EvWriteFile hookpath
         ("#!/bin/sh" +:+ Py.nl +:+ Py.nl +:+ "precommit --all" +:+ Py.nl)] in
  let* _ := os env (Stat hookpath) [] in
  let st_mode := st_mode env hookpath in
  os env (Chmod hookpath)
    [EvChmod hookpath (N.lor (N.lor (N.lor st_mode 64) 8) 1)].

Definition main (env : Env) : Front unit :=
  let* args := handle_args env (tl (sys_argv env)) in
  let* _ := chdir_to_git_root env in
  let* help := flag args "--help" in
  if String.eqb (subcommand args) "help" || help then main_help env args
  else if String.eqb (subcommand args) "init" then main_init env args
  else if String.eqb (subcommand args) "fix" then main_fix env args
  else main_check env args.

(** The status the process ends with: 0 when [main] returns, the code of
    [sys.exit], and 1 for any other exception that nobody catches. *)
Definition exit_status {A} (o : outcome A) : Z :=
  match o with
  | Returned _ => 0
  | Raised (SystemExit code) => code
  | Raised _ => 1
  end.

Definition run (env : Env) : Z * Proc :=
  let r := main env initial_proc in
  (exit_status (fst r), snd r).

End Main.

(** * Properties *)

(** ** The monad and the gateway *)

Lemma print_lines_run (lines : list string) (w : World) :
  Console.print_lines lines w =
  (Returned tt,
   {| commands_run := commands_run w;
      captured_output := captured_output w ++ lines |}).
Proof.
  unfold Console.print_lines.
  revert w. induction lines as [|l lines IH]; intros w; cbn.
  - unfold ret. rewrite app_nil_r. by destruct w.
  - rewrite IH. cbn. by rewrite <- app_assoc.
Qed.

Lemma fs_print_run (fs : Filesystem) (msg : string) (w : World) :
  Fs.print fs msg w =
  (Returned tt,
   {| commands_run := commands_run w;
      captured_output :=
        captured_output w
        ++ List.map (fun l => Fs.margin +:+ l) (Py.split_lines msg) |}).
Proof. apply print_lines_run. Qed.

(** ** File filtering *)

Lemma star_matches_all (s : list ascii) : Glob.matches [Glob.Star] s = true.
Proof.
  induction s as [|c s IH]; [reflexivity|].
  cbn in *. by rewrite IH.
Qed.

Lemma fnmatch_star_any (path : string) : Glob.fnmatch path "*" = true.
Proof. unfold Glob.fnmatch. cbn. apply star_matches_all. Qed.

Lemma matches_any_spec (path : string) (pats : list string) :
  BaseCheck.matches_any path pats = true <->
  exists pat, pat ∈ pats /\ Glob.fnmatch path pat = true.
Proof.
  unfold BaseCheck.matches_any. rewrite existsb_exists.
  split; intros (pat & Hin & Hm); exists pat; split; auto;
    by apply list_elem_of_In.
Qed.

Lemma filter_sublist {A} (f : A -> bool) (l : list A) :
  sublist (List.filter f l) l.
Proof.
  induction l as [|x l IH]; cbn; [constructor|].
  destruct (f x); by constructor.
Qed.

Lemma filter_all {A} (f : A -> bool) (l : list A) :
  (forall x, f x = true) -> List.filter f l = l.
Proof.
  intros Hf. induction l as [|x l IH]; cbn; [done|].
  by rewrite Hf, IH.
Qed.

(** C1. [filter] returns the paths of its input, in their order, that match
    at least one include pattern and no exclude pattern, so an excluded path
    is never returned; an empty include list stands for the single pattern
    [*], which every path matches, and an empty exclude list excludes
    nothing; with both lists empty the input comes back unchanged. *)
Theorem filter_include_exclude (self : BaseCheck.t) (paths : list string) :
  sublist (BaseCheck.filter self paths) paths
  /\ (forall path,
        path ∈ BaseCheck.filter self paths <->
        path ∈ paths
        /\ (exists pat,
              pat ∈ BaseCheck.include_patterns self
              /\ Glob.fnmatch path pat = true)
        /\ ~ (exists pat,
                pat ∈ BaseCheck.exclude self /\ Glob.fnmatch path pat = true))
  /\ (forall s ex,
        BaseCheck.include_patterns
          {| BaseCheck.slow := s; BaseCheck.include := [];
             BaseCheck.exclude := ex |} = ["*"])
  /\ (forall path, Glob.fnmatch path "*" = true)
  /\ (forall path, BaseCheck.matches_any path [] = false)
  /\ (forall s,
        BaseCheck.filter
          {| BaseCheck.slow := s; BaseCheck.include := [];
             BaseCheck.exclude := [] |} paths = paths).
Proof.
  split; [apply filter_sublist|].
  split.
  { intros path. unfold BaseCheck.filter.
    rewrite !list_elem_of_In, filter_In. unfold BaseCheck.keeps.
    rewrite andb_true_iff, negb_true_iff, <- not_true_iff_false.
    rewrite !matches_any_spec. tauto. }
  split; [reflexivity|].
  split; [apply fnmatch_star_any|].
  split; [reflexivity|].
  intros s. unfold BaseCheck.filter. apply filter_all.
  intros path.
  unfold BaseCheck.keeps, BaseCheck.matches_any, BaseCheck.include_patterns.
  cbv [BaseCheck.include BaseCheck.exclude existsb].
  by rewrite fnmatch_star_any.
Qed.

Lemma filter_include_exclude_witness :
  BaseCheck.filter
    {| BaseCheck.slow := false; BaseCheck.include := ["*.py"];
       BaseCheck.exclude := ["ignoreme.py"] |}
    ["main.py"; "ignoreme.py"; "README"] = ["main.py"]
  /\ "main.py" ∈ ["main.py"; "ignoreme.py"; "README"].
Proof.
  split; [reflexivity|].
  pose proof (filter_include_exclude
    {| BaseCheck.slow := false; BaseCheck.include := ["*.py"];
       BaseCheck.exclude := ["ignoreme.py"] |}
    ["main.py"; "ignoreme.py"; "README"]) as (_ & Hiff & _).
  apply (Hiff "main.py"). vm_compute. left.
Defined.

(** ** Construction of a command check *)

(** What a line [precommit.check(checks.Command(...))] of the configuration
    does to the checklist: the constructor runs first. *)
Definition register_command (c : outcome Command.t) (checks : list Checker)
  : outcome (list Checker) :=
  match c with
  | Returned c => Returned (Checklist.register (checker_Command c) checks)
  | Raised e => Raised e
  end.

Definition with_config (env : Env)
    (init : list Checker -> outcome (list Checker)) : Env :=
  {| sys_argv := sys_argv env;
     environ_NO_COLOR := environ_NO_COLOR env;
     stdout_isatty := stdout_isatty env;
     git_toplevel := git_toplevel env;
     path_exists := path_exists env;
     os_error := os_error env;
     st_mode := st_mode env;
     precommit_py := Some init;
     filesystem := filesystem env |}.

Definition usage_message : string :=
  "if `separately` is True, `pass_files` must also be True".

(** C4. [Command(...)] with [separately=True] and [pass_files=False] raises
    a [UsageError]; the three other combinations of the two flags build the
    check. The error comes out of the constructor, so a configuration that
    holds such a line stops both [main_check] and [main_fix] while the
    configuration loads, with the world of the gateway untouched: nothing
    was checked and nothing was fixed. *)
Theorem command_separately_needs_pass_files
    (name : string) (cmd : list string) (fix_ : option (list string))
    (kwargs : BaseCheck.t) (env : Env) (args : Main.Args) (p : Proc) :
  Command.init name cmd fix_ false true kwargs
    = Raised (UsageError usage_message)
  /\ Command.init name cmd fix_ true true kwargs
     = Returned {| Command.base := kwargs; Command.name := name;
                   Command.cmd := cmd; Command.fix_ := fix_;
                   Command.pass_files := true; Command.separately := true |}
  /\ Command.init name cmd fix_ true false kwargs
     = Returned {| Command.base := kwargs; Command.name := name;
                   Command.cmd := cmd; Command.fix_ := fix_;
                   Command.pass_files := true; Command.separately := false |}
  /\ Command.init name cmd fix_ false false kwargs
     = Returned {| Command.base := kwargs; Command.name := name;
                   Command.cmd := cmd; Command.fix_ := fix_;
                   Command.pass_files := false; Command.separately := false |}
  /\ (let env' :=
        with_config env
          (register_command (Command.init name cmd fix_ false true kwargs)) in
      fst (Main.main_check env' args p) = Raised (UsageError usage_message)
      /\ world (snd (Main.main_check env' args p)) = world p
      /\ fst (Main.main_fix env' args p) = Raised (UsageError usage_message)
      /\ world (snd (Main.main_fix env' args p)) = world p).
Proof. repeat split. Qed.

(** ** The staged-and-unstaged check *)

Lemma both_spec (repository : Repository) (path : string) :
  path ∈ NoStagedAndUnstagedChanges.both repository <->
  path ∈ staged repository /\ path ∈ unstaged repository.
Proof.
  unfold NoStagedAndUnstagedChanges.both.
  by rewrite elem_of_intersection, !elem_of_list_to_set.
Qed.

Lemma both_nonempty (repository : Repository) :
  NoStagedAndUnstagedChanges.both repository ≠ ∅ <->
  exists path, path ∈ staged repository /\ path ∈ unstaged repository.
Proof.
  split.
  - intros Hne. apply set_choose_L in Hne as [path Hpath].
    exists path. by apply both_spec.
  - intros (path & Hpath) Hempty. apply both_spec in Hpath.
    rewrite Hempty in Hpath. by apply not_elem_of_empty in Hpath.
Qed.

(** The order of [sorted] is total and transitive. *)

Lemma ascii_compare_N (a b : ascii) :
  Ascii.compare a b = N.compare (N_of_ascii a) (N_of_ascii b).
Proof. reflexivity. Qed.

Lemma string_compare_trans_le (a b c : string) :
  String.compare a b <> Gt -> String.compare b c <> Gt ->
  String.compare a c <> Gt.
Proof.
  revert b c. induction a as [|x a IH]; intros [|y b] [|z c]; cbn; try done.
  rewrite !ascii_compare_N.
  destruct (N.compare_spec (N_of_ascii x) (N_of_ascii y)) as [Hxy|Hxy|Hxy];
    try done;
    destruct (N.compare_spec (N_of_ascii y) (N_of_ascii z)) as [Hyz|Hyz|Hyz];
    try done; intros Hab Hbc.
  - rewrite Hxy, Hyz, N.compare_refl. by eapply IH.
  - rewrite Hxy. by apply N.compare_lt_iff in Hyz as ->.
  - rewrite <- Hyz. by apply N.compare_lt_iff in Hxy as ->.
  - assert (N_of_ascii x < N_of_ascii z)%N as Hxz by lia.
    by apply N.compare_lt_iff in Hxz as ->.
Qed.

#[global] Instance str_le_trans : Transitive Py.str_le.
Proof.
  intros a b c. unfold Py.str_le, String.leb. intros Hab Hbc.
  pose proof (string_compare_trans_le a b c) as H.
  destruct (String.compare a b), (String.compare b c),
    (String.compare a c); try done; by exfalso; apply H.
Qed.

#[global] Instance str_le_total : Total Py.str_le.
Proof. intros a b. apply String.leb_total. Qed.

Lemma sorted_spec (l : list string) :
  StronglySorted Py.str_le (Py.sorted l) /\ Py.sorted l ≡ₚ l.
Proof.
  split.
  - apply StronglySorted_merge_sort; apply _.
  - apply merge_sort_Permutation.
Qed.

(** Lines that hold no line feed come back from [split] as they went into
    [join]. *)

Definition one_line (s : string) : Prop := Py.nl_char ∉ Py.chars s.

Lemma chars_app (a b : string) :
  Py.chars (a +:+ b) = Py.chars a ++ Py.chars b.
Proof.
  unfold Py.chars. induction a as [|x a IH]; [done|].
  simpl. by f_equal.
Qed.

Lemma split_aux_last (cur s : list ascii) :
  Py.nl_char ∉ s ->
  Py.split_lines_aux cur s = [string_of_list_ascii (rev cur ++ s)].
Proof.
  revert cur. induction s as [|c s IH]; intros cur Hs; cbn.
  - by rewrite app_nil_r.
  - apply not_elem_of_cons in Hs as [Hc Hs].
    destruct (Ascii.eqb_spec c "010"%char) as [->|_]; [done|].
    rewrite IH by done. cbn. by rewrite <- app_assoc.
Qed.

Lemma split_aux_line (cur s rest : list ascii) :
  Py.nl_char ∉ s ->
  Py.split_lines_aux cur (s ++ Py.nl_char :: rest) =
  string_of_list_ascii (rev cur ++ s) :: Py.split_lines_aux [] rest.
Proof.
  revert cur. induction s as [|c s IH]; intros cur Hs; cbn.
  - by rewrite app_nil_r.
  - apply not_elem_of_cons in Hs as [Hc Hs].
    destruct (Ascii.eqb_spec c "010"%char) as [->|_]; [done|].
    rewrite IH by done. cbn. by rewrite <- app_assoc.
Qed.

Lemma split_join (l : list string) :
  l <> [] -> Forall one_line l ->
  Py.split_lines (Py.join Py.nl l) = l.
Proof.
  unfold Py.split_lines, Py.join.
  induction l as [|x l IH]; [done|]. intros _ Hl.
  apply Forall_cons in Hl as [Hx Hl].
  destruct l as [|y l].
  - cbn. rewrite split_aux_last by done. cbn.
    by rewrite string_of_list_ascii_of_string.
  - change (String.concat Py.nl (x :: y :: l))
      with (x +:+ Py.nl +:+ String.concat Py.nl (y :: l)).
    rewrite !chars_app. change (Py.chars Py.nl) with [Py.nl_char]. cbn [app].
    rewrite split_aux_line by done. cbn [rev app].
    unfold Py.chars at 1. rewrite string_of_list_ascii_of_string.
    f_equal. by apply IH.
Qed.
(** C8. [NoStagedAndUnstagedChanges.check] reports a problem exactly when
    some file is both staged and unstaged. The autofix of the problem is
    [git add] followed by the files of the intersection, each once; the
    message handed to [fs.print] is the intersection in sorted order, joined
    by line feeds, so that the console shows one path per line whenever no
    path holds a line feed itself. Without a common file the check returns
    nothing and leaves the world as it was. *)
Theorem overlap_check_spec (self : BaseCheck.t) (fs : Filesystem)
    (repository : Repository) (w : World) :
  let files := elements (NoStagedAndUnstagedChanges.both repository) in
  let listing := Py.sorted files in
  NoDup files
  /\ (forall path,
        path ∈ files <->
        path ∈ staged repository /\ path ∈ unstaged repository)
  /\ StronglySorted Py.str_le listing
  /\ listing ≡ₚ files
  /\ ((exists path, path ∈ staged repository /\ path ∈ unstaged repository) ->
      NoStagedAndUnstagedChanges.check self fs repository w =
      (Returned (Some {| message := None;
                         autofix := Some (AutofixCommand
                                            ("git" :: "add" :: files)) |}),
       snd (Fs.print fs (Py.join Py.nl listing) w))
      /\ commands_run (snd (Fs.print fs (Py.join Py.nl listing) w))
         = commands_run w
      /\ captured_output (snd (Fs.print fs (Py.join Py.nl listing) w))
         = captured_output w
           ++ List.map (fun l => Fs.margin +:+ l)
                (Py.split_lines (Py.join Py.nl listing))
      /\ (Forall one_line (staged repository) ->
          Py.split_lines (Py.join Py.nl listing) = listing))
  /\ (~ (exists path, path ∈ staged repository /\ path ∈ unstaged repository) ->
      NoStagedAndUnstagedChanges.check self fs repository w
      = (Returned None, w)).
Proof.
  intros files listing.
  assert (forall path,
            path ∈ files <->
            path ∈ staged repository /\ path ∈ unstaged repository) as Hfiles.
  { intros path. unfold files. by rewrite elem_of_elements, both_spec. }
  destruct (sorted_spec files) as [Hsorted Hperm].
  split; [apply NoDup_elements|].
  split; [done|]. split; [done|]. split; [done|].
  unfold NoStagedAndUnstagedChanges.check.
  split.
  - intros Hex. apply both_nonempty in Hex as Hne.
    rewrite bool_decide_eq_true_2 by done.
    fold files. fold listing. unfold bind. rewrite fs_print_run. cbn.
    repeat split.
    intros Hlines. apply split_join.
    + destruct Hex as (path & Hpath). apply Hfiles in Hpath.
      intros Hnil. rewrite <- Hperm in Hpath. unfold listing in Hnil.
      rewrite Hnil in Hpath. by apply not_elem_of_nil in Hpath.
    + apply Forall_forall. intros path Hpath.
      rewrite Forall_forall in Hlines. apply Hlines.
      unfold listing in Hpath. rewrite Hperm in Hpath.
      by apply Hfiles in Hpath as [? ?].
  - intros Hnone. rewrite <- both_nonempty in Hnone.
    by rewrite bool_decide_eq_false_2.
Qed.

Lemma overlap_check_spec_witness :
  exists listing,
    NoStagedAndUnstagedChanges.check BaseCheck.default Mock.MockFilesystem
      {| staged := ["main.py"; "ignoreme.py"]; staged_for_deletion := [];
         unstaged := ["main.py"] |} empty_world
    = (Returned (Some {| message := None;
                         autofix := Some (AutofixCommand
                                            ["git"; "add"; "main.py"]) |}),
       snd (Fs.print Mock.MockFilesystem listing empty_world)).
Proof.
  exists "main.py".
  pose proof (overlap_check_spec BaseCheck.default Mock.MockFilesystem
    {| staged := ["main.py"; "ignoreme.py"]; staged_for_deletion := [];
       unstaged := ["main.py"] |} empty_world) as (_ & _ & _ & _ & Hsome & _).
  destruct Hsome as (Heq & _).
  - exists "main.py". split; [left | left].
  - exact Heq.
Defined.

(** C9. The outcome of [NoStagedAndUnstagedChanges.check] is a function of
    the staged and the unstaged list alone: two checks built with any
    include and exclude patterns (and any [slow] flag), run on repository
    views that agree on these two lists, return the same result and leave the
    same world. *)
Theorem overlap_check_ignores_filter (self1 self2 : BaseCheck.t)
    (fs : Filesystem) (repository1 repository2 : Repository) (w : World) :
  staged repository1 = staged repository2 ->
  unstaged repository1 = unstaged repository2 ->
  NoStagedAndUnstagedChanges.check self1 fs repository1 w
  = NoStagedAndUnstagedChanges.check self2 fs repository2 w.
Proof.
  intros Hs Hu.
  unfold NoStagedAndUnstagedChanges.check, NoStagedAndUnstagedChanges.both.
  by rewrite Hs, Hu.
Qed.

Lemma overlap_check_ignores_filter_witness :
  NoStagedAndUnstagedChanges.check
    {| BaseCheck.slow := false; BaseCheck.include := ["*.py"];
       BaseCheck.exclude := ["main.py"] |}
    Mock.MockFilesystem
    {| staged := ["main.py"]; staged_for_deletion := [];
       unstaged := ["main.py"] |} empty_world
  = NoStagedAndUnstagedChanges.check
      {| BaseCheck.slow := true; BaseCheck.include := ["*.rs"];
         BaseCheck.exclude := [] |}
      Mock.MockFilesystem
      {| staged := ["main.py"]; staged_for_deletion := ["gone.py"];
         unstaged := ["main.py"] |} empty_world.
Proof.
  apply (overlap_check_ignores_filter
           {| BaseCheck.slow := false; BaseCheck.include := ["*.py"];
              BaseCheck.exclude := ["main.py"] |}
           {| BaseCheck.slow := true; BaseCheck.include := ["*.rs"];
              BaseCheck.exclude := [] |}
           Mock.MockFilesystem
           {| staged := ["main.py"]; staged_for_deletion := [];
              unstaged := ["main.py"] |}
           {| staged := ["main.py"]; staged_for_deletion := ["gone.py"];
              unstaged := ["main.py"] |}
           empty_world); reflexivity.
Defined.

(** ** Searching for the forbidden text *)

Section Contains.

Context {A : Type} (eqb : A -> A -> bool).
Hypothesis eqb_true : forall x y, eqb x y = true <-> x = y.

Lemma is_prefix_spec (needle hay : list A) :
  Py.is_prefix eqb needle hay = true <-> exists post, hay = needle ++ post.
Proof.
  revert hay. induction needle as [|x needle IH]; intros hay; cbn.
  - split; [intros _; by exists hay | done].
  - destruct hay as [|y hay].
    + split; [done | by intros (post & Hpost)].
    + rewrite andb_true_iff, eqb_true, IH. split.
      * intros (-> & post & ->). by exists post.
      * intros (post & Hpost). injection Hpost as -> ->. eauto.
Qed.

Lemma contains_spec (needle hay : list A) :
  Py.contains eqb needle hay = true <->
  exists pre post, hay = pre ++ needle ++ post.
Proof.
  induction hay as [|y hay IH]; cbn.
  - rewrite orb_false_r, is_prefix_spec. split.
    + intros (post & Hpost). by exists [], post.
    + intros (pre & post & Hhay).
      destruct pre; [by exists post | done].
  - rewrite orb_true_iff, is_prefix_spec, IH. split.
    + intros [(post & Hpost) | (pre & post & ->)].
      * by exists [], post.
      * by exists (y :: pre), post.
    + intros (pre & post & Hhay). destruct pre as [|z pre].
      * left. by exists post.
      * right. injection Hhay as -> ->. by exists pre, post.
Qed.

End Contains.

Lemma byte_eqb_true (x y : byte) : Byte.eqb x y = true <-> x = y.
Proof. split; [apply Byte.byte_dec_bl | apply Byte.byte_dec_lb]. Qed.

Lemma flagged_spec (content : list byte) :
  DoNotSubmit.flagged content = true <->
  exists pre post,
    Py.upper content = pre ++ Py.encode_ascii "DO NOT SUBMIT" ++ post.
Proof. apply (contains_spec Byte.eqb byte_eqb_true). Qed.

(** Whether the file at [path] holds the text, in the world [w]. *)
Definition holds_text (fs : Filesystem) (w : World) (path : string) : bool :=
  match file_bytes fs path w with
  | Some content => DoNotSubmit.flagged content
  | None => false
  end.

Lemma scan_readable (fs : Filesystem) (paths acc : list string) (w : World) :
  (forall path, path ∈ paths -> is_Some (file_bytes fs path w)) ->
  for_each paths
    (fun path bad_paths =>
       let* content := Fs.open_read fs path in
       if DoNotSubmit.flagged content
       then ret (bad_paths ++ [path])
       else ret bad_paths) acc w
  = (Returned (acc ++ List.filter (holds_text fs w) paths), w).
Proof.
  revert acc. induction paths as [|path paths IH]; intros acc Hread; cbn.
  - by rewrite app_nil_r.
  - destruct (Hread path) as [content Hcontent]; [left|].
    unfold bind at 1. unfold bind at 1. unfold Fs.open_read at 1.
    unfold holds_text at 1. rewrite Hcontent.
    destruct (DoNotSubmit.flagged content); unfold ret at 1.
    + rewrite IH by (intros; apply Hread; by right).
      by rewrite <- app_assoc.
    + apply IH. intros; apply Hread; by right.
Qed.

(** C10. When the filtered staged files can be read, [DoNotSubmit.check]
    lists exactly those whose bytes, put in upper case, hold the ASCII text
    [DO NOT SUBMIT]; the text is thus found in any mix of cases, the
    lower-case spelling included. As soon as one file is listed the check
    returns a problem with a message and without an autofix, and the check is
    not fixable; when none is listed it returns nothing. *)
Theorem do_not_submit_spec (self : BaseCheck.t) (fs : Filesystem)
    (repository : Repository) (w : World) :
  (forall path,
     path ∈ BaseCheck.filter self (staged repository) ->
     is_Some (file_bytes fs path w)) ->
  exists bad_paths,
    (forall path,
       path ∈ bad_paths <->
       path ∈ BaseCheck.filter self (staged repository)
       /\ exists content pre post,
            file_bytes fs path w = Some content
            /\ Py.upper content
               = pre ++ Py.encode_ascii "DO NOT SUBMIT" ++ post)
    /\ (bad_paths <> [] ->
        DoNotSubmit.check self fs repository w =
        (Returned (Some {| message := Some "file contains 'DO NOT SUBMIT'";
                           autofix := None |}),
         snd (Fs.print fs (Py.join Py.nl (Py.sorted bad_paths)) w)))
    /\ (bad_paths = [] ->
        DoNotSubmit.check self fs repository w = (Returned None, w))
    /\ (forall pre text post,
          Py.upper text = Py.encode_ascii "DO NOT SUBMIT" ->
          DoNotSubmit.flagged (pre ++ text ++ post) = true)
    /\ Py.upper (Py.encode_ascii "do not submit")
       = Py.encode_ascii "DO NOT SUBMIT"
    /\ is_fixable (checker_DoNotSubmit self) = false.
Proof.
  intros Hread.
  exists (List.filter (holds_text fs w)
            (BaseCheck.filter self (staged repository))).
  split.
  { intros path. rewrite list_elem_of_In, filter_In, <- list_elem_of_In.
    unfold holds_text. split.
    - intros [Hin Hheld]. split; [done|].
      destruct (file_bytes fs path w) as [content|]; [|done].
      apply flagged_spec in Hheld as (pre & post & Hup). by exists content, pre, post.
    - intros [Hin (content & pre & post & -> & Hup)]. split; [done|].
      apply flagged_spec. by exists pre, post. }
  assert (DoNotSubmit.scan fs (BaseCheck.filter self (staged repository)) w
          = (Returned (List.filter (holds_text fs w)
                         (BaseCheck.filter self (staged repository))), w))
    as Hscan by (by apply scan_readable).
  unfold DoNotSubmit.check.
  split.
  { intros Hbad. unfold bind at 1. rewrite Hscan.
    destruct (List.filter _ _) as [|path bad] eqn:Hfiltered; [done|].
    cbn [Py.truthy]. unfold bind. by rewrite fs_print_run. }
  split.
  { intros Hbad. unfold bind at 1. by rewrite Hscan, Hbad. }
  split.
  { intros pre text post Hup. apply flagged_spec.
    exists (Py.upper pre), (Py.upper post).
    unfold Py.upper in *. by rewrite !map_app, Hup. }
  split; reflexivity.
Qed.

Lemma do_not_submit_spec_witness :
  DoNotSubmit.check BaseCheck.default
    (Mock.scripted []
       [("a.py", Py.encode_ascii "x = 1  # do Not submit");
        ("b.py", Py.encode_ascii "y = 2")]
       ["a.py"; "b.py"] [] [])
    {| staged := ["a.py"; "b.py"]; staged_for_deletion := []; unstaged := [] |}
    empty_world
  = (Returned (Some {| message := Some "file contains 'DO NOT SUBMIT'";
                       autofix := None |}),
     {| commands_run := []; captured_output := ["|  a.py"] |}).
Proof.
  destruct (do_not_submit_spec BaseCheck.default
    (Mock.scripted []
       [("a.py", Py.encode_ascii "x = 1  # do Not submit");
        ("b.py", Py.encode_ascii "y = 2")]
       ["a.py"; "b.py"] [] [])
    {| staged := ["a.py"; "b.py"]; staged_for_deletion := []; unstaged := [] |}
    empty_world) as (bad_paths & Hbad & Hsome & _).
  - intros path Hpath. vm_compute in Hpath.
    apply elem_of_cons in Hpath as [->|Hpath]; [by eexists|].
    apply elem_of_cons in Hpath as [->|Hpath]; [by eexists|].
    by apply not_elem_of_nil in Hpath.
  - reflexivity.
Defined.

(** ** Command checks *)

Lemma fs_run_launched (fs : Filesystem) (cmd : list string) (w : World)
    (rc : Z) (out : list string) :
  run_result fs cmd w = Some (rc, out) ->
  exists w',
    Fs.run fs cmd w = (Returned {| returncode := rc |}, w')
    /\ commands_run w' = commands_run w ++ [cmd].
Proof.
  intros Hrun. unfold Fs.run. rewrite Hrun.
  unfold bind at 1. cbn [Fs.record_command].
  set (w1 := {| commands_run := commands_run w ++ [cmd];
                captured_output := captured_output w |}).
  assert (forall (lines : list string) (v : World),
            exists v',
              for_each lines (fun line _ => Fs.print fs line) tt v
              = (Returned tt, v')
              /\ commands_run v' = commands_run v) as Hprint.
  { induction lines as [|l lines IH]; intros v; cbn.
    - by exists v.
    - unfold bind at 1. rewrite fs_print_run.
      destruct (IH {| commands_run := commands_run v;
                      captured_output :=
                        captured_output v
                        ++ List.map (fun l0 => Fs.margin +:+ l0)
                             (Py.split_lines l) |})
        as (v' & Hv' & Hcmds).
      exists v'. by rewrite Hv'. }
  destruct (Hprint out w1) as (w' & Hw' & Hcmds).
  exists w'. unfold bind. rewrite Hw'. by rewrite Hcmds.
Qed.

Lemma fs_run_failed (fs : Filesystem) (cmd : list string) (w : World) :
  run_result fs cmd w = None ->
  Fs.run fs cmd w =
  (Raised (OSError (Py.join " " cmd)),
   {| commands_run := commands_run w ++ [cmd];
      captured_output := captured_output w |}).
Proof. intros Hrun. unfold Fs.run. by rewrite Hrun. Qed.

Lemma fs_run_commands (fs : Filesystem) (cmd : list string) (w : World) :
  commands_run (snd (Fs.run fs cmd w)) = commands_run w ++ [cmd].
Proof.
  destruct (run_result fs cmd w) as [[rc out]|] eqn:Hrun.
  - destruct (fs_run_launched fs cmd w rc out Hrun) as (w' & -> & Hcmds).
    exact Hcmds.
  - by rewrite fs_run_failed.
Qed.

(** The exit statuses of a series of commands, run one after the other. *)
Fixpoint exit_codes (fs : Filesystem) (cmds : list (list string))
  : Action (list Z) :=
  match cmds with
  | [] => ret []
  | cmd :: cmds' =>
      let* r := Fs.run fs cmd in
      let* codes := exit_codes fs cmds' in
      ret (returncode r :: codes)
  end.

(** The commands one run of [Command.check] hands to the gateway: the check
    command once for every filtered staged file, or once with the files it
    passes. *)
Definition invocations (self : Command.t) (repository : Repository)
  : list (list string) :=
  let files := BaseCheck.filter (Command.base self) (staged repository) in
  if Command.separately self
  then List.map (fun path => Command.cmd self ++ [path]) files
  else [Command.cmd self ++ (if Command.pass_files self then files else [])].

Definition nonzero (rc : Z) : bool := negb (rc =? 0)%Z.

Lemma run_each_codes (self : Command.t) (fs : Filesystem)
    (paths : list string) (acc : bool) (w : World) :
  for_each paths
    (fun path problem =>
       let* r := Fs.run fs (Command.cmd self ++ [path]) in
       if Command.nonzero r then ret true else ret problem) acc w
  = match exit_codes fs
            (List.map (fun path => Command.cmd self ++ [path]) paths) w with
    | (Returned codes, w') => (Returned (acc || existsb nonzero codes), w')
    | (Raised e, w') => (Raised e, w')
    end.
Proof.
  revert acc w. induction paths as [|path paths IH]; intros acc w; cbn.
  - unfold ret. by rewrite orb_false_r.
  - unfold bind at 1. unfold bind at 1. unfold bind at 2.
    destruct (Fs.run fs (Command.cmd self ++ [path]) w) as [[r|e] w1]; [|done].
    unfold Command.nonzero at 1. fold (nonzero (returncode r)).
    destruct (nonzero (returncode r)) eqn:Hr; unfold ret at 1; rewrite IH;
      unfold bind;
      destruct (exit_codes fs _ w1) as [[codes|e] w2]; try done; cbn;
      rewrite Hr; cbn; [by rewrite orb_true_r | done].
Qed.


Lemma existsb_nonzero (codes : list Z) :
  existsb nonzero codes = true <-> Exists (fun rc => rc <> 0%Z) codes.
Proof.
  rewrite existsb_exists, Exists_exists. unfold nonzero.
  split; intros (rc & Hin & Hrc); exists rc.
  - split; [by apply list_elem_of_In|].
    apply negb_true_iff, Z.eqb_neq in Hrc. done.
  - split; [by apply list_elem_of_In|].
    by apply negb_true_iff, Z.eqb_neq.
Qed.

Lemma command_check_codes (self : Command.t) (fs : Filesystem)
    (repository : Repository) (w : World) :
  Command.check self fs repository w =
  match exit_codes fs (invocations self repository) w with
  | (Returned codes, w') =>
      (Returned
         (if existsb nonzero codes
          then Some {| message := None;
                       autofix :=
                         if Command.separately self
                         then option_map AutofixCommand (Command.fix_ self)
                         else
                           match Command.fix_ self with
                           | Some f =>
                               if Py.truthy f
                               then Some (AutofixCommand
                                            (f ++ if Command.pass_files self
                                                  then BaseCheck.filter
                                                         (Command.base self)
                                                         (staged repository)
                                                  else []))
                               else None
                           | None => None
                           end |}
          else None), w')
  | (Raised e, w') => (Raised e, w')
  end.
Proof.
  unfold Command.check, invocations.
  destruct (Command.separately self).
  - unfold bind at 1. unfold Command.run_each. rewrite run_each_codes.
    destruct (exit_codes fs _ w) as [[codes|e] w']; [|done].
    cbn [orb]. by destruct (existsb nonzero codes).
  - cbn [exit_codes]. unfold bind.
    destruct (Fs.run fs _ w) as [[r|e] w']; [|done].
    cbn. unfold Command.nonzero. fold (nonzero (returncode r)).
    rewrite orb_false_r. by destruct (nonzero (returncode r)).
Qed.


Definition black_check : Command.t :=
  {| Command.base := {| BaseCheck.slow := false; BaseCheck.include := ["*.py"];
                        BaseCheck.exclude := ["ignoreme.py"] |};
     Command.name := "PythonFormat";
     Command.cmd := ["black"; "--check"];
     Command.fix_ := Some ["black"];
     Command.pass_files := true;
     Command.separately := false |}.








(** ** Rejected command lines *)

(** The arguments as [handle_args] parses them. *)
Definition parsed (env : Env) : Main.Args :=
  Main.parse_args env (tl (sys_argv env)).

Definition unknown_flag (flag : string) : bool :=
  negb (Dict.has flag Main.FLAGS).

Definition invalid_flag (sub flag : string) : bool :=
  match Dict.get flag Main.FLAGS with
  | Some valid => Py.truthy valid && negb (Main.mem sub valid)
  | None => false
  end.

Definition bad_flag (sub flag : string) : bool :=
  unknown_flag flag || invalid_flag sub flag.

(** A command line with an extra positional argument, an unknown
    subcommand, an unknown flag or a flag that its subcommand does not
    take. *)
Definition malformed (a : Main.Args) : bool :=
  (0 <? List.length (Main.positional a))%nat
  || negb (Main.mem (Main.subcommand a) Main.SUBCOMMANDS)
  || existsb (bad_flag (Main.subcommand a)) (Dict.keys (Main.flags a)).

(** The tokens at fault: flags stand in their long form. *)
Definition offending_tokens (a : Main.Args) : list string :=
  Main.positional a
  ++ (if Main.mem (Main.subcommand a) Main.SUBCOMMANDS
      then [] else [Main.subcommand a])
  ++ List.filter (bad_flag (Main.subcommand a)) (Dict.keys (Main.flags a)).

(** The error line names one of the tokens at fault. *)
Definition error_names_offender (env : Env) : Prop :=
  exists line tok,
    EvStderr line ∈ events (snd (Main.run env))
    /\ tok ∈ offending_tokens (parsed env)
    /\ Py.str_in tok line = true.

(** What [handle_args] does before it looks at the arguments. *)
Definition color_events (env : Env) : list event :=
  if environ_NO_COLOR env && negb (stdout_isatty env)
  then [EvColors false] else [].

Lemma str_in_refl (tok : string) : Py.str_in tok tok = true.
Proof.
  apply (contains_spec Ascii.eqb Ascii.eqb_eq). exists [], [].
  by rewrite app_nil_r.
Qed.

Lemma str_in_here (tok post : string) : Py.str_in tok (tok +:+ post) = true.
Proof.
  unfold Py.str_in. rewrite chars_app.
  apply (contains_spec Ascii.eqb Ascii.eqb_eq). by exists [], (Py.chars post).
Qed.

Lemma str_in_skip (pre s tok : string) :
  Py.str_in tok s = true -> Py.str_in tok (pre +:+ s) = true.
Proof.
  unfold Py.str_in. rewrite chars_app.
  rewrite !(contains_spec Ascii.eqb Ascii.eqb_eq).
  intros (a & b & ->). exists (Py.chars pre ++ a), b. by rewrite <- app_assoc.
Qed.

Lemma check_flags_none (sub : string) (keys : list string) :
  existsb (bad_flag sub) keys = false -> Main.check_flags sub keys = None.
Proof.
  induction keys as [|flag keys IH]; [done|]. cbn [existsb Main.check_flags].
  intros [Hflag Hrest]%orb_false_iff.
  unfold bad_flag, unknown_flag, invalid_flag, Dict.has in Hflag.
  destruct (Dict.get flag Main.FLAGS) as [valid|]; [|done].
  cbn in Hflag. rewrite Hflag. by apply IH.
Qed.

Lemma check_flags_some (sub : string) (keys : list string) :
  existsb (bad_flag sub) keys = true ->
  exists flag,
    flag ∈ keys /\ bad_flag sub flag = true
    /\ (Main.check_flags sub keys = Some ("unknown flag: " +:+ flag)
        /\ unknown_flag flag = true
        \/ Main.check_flags sub keys
           = Some ("flag " +:+ flag +:+ " not valid for " +:+ sub
                   +:+ " subcommand")
           /\ invalid_flag sub flag = true).
Proof.
  induction keys as [|flag keys IH]; [done|]. cbn [existsb Main.check_flags].
  destruct (bad_flag sub flag) eqn:Hflag.
  - intros _. exists flag. split; [left|]. split; [done|].
    unfold bad_flag, unknown_flag, invalid_flag, Dict.has in *.
    destruct (Dict.get flag Main.FLAGS) as [valid|]; [right | by left].
    cbn in Hflag. by rewrite Hflag.
  - cbn [orb]. intros Hrest. destruct (IH Hrest) as (flag' & Hin & Hbad & Hmsg).
    exists flag'. split; [by right|]. split; [done|].
    unfold bad_flag, unknown_flag, invalid_flag, Dict.has in Hflag.
    destruct (Dict.get flag Main.FLAGS) as [valid|]; [|done].
    cbn in Hflag. by rewrite Hflag.
Qed.

Lemma error_exit (env : Env) (msg : string) :
  Main.check_args (parsed env) = Some msg -> Main.str_truthy msg = true ->
  Main.run env =
  (1%Z, {| events := color_events env ++ [EvStderr ("Error: " +:+ msg)];
           world := empty_world |}).
Proof.
  intros Hcheck Htruthy.
  unfold Main.run, Main.main, Main.handle_args, color_events.
  fold (parsed env). rewrite Hcheck, Htruthy.
  by destruct (environ_NO_COLOR env && negb (stdout_isatty env)).
Qed.

Definition env_of (argv : list string) : Env :=
  {| sys_argv := "precommit" :: argv;
     environ_NO_COLOR := false;
     stdout_isatty := true;
     git_toplevel := Some "/repo";
     path_exists := fun _ => false;
     os_error := fun _ => None;
     st_mode := fun _ => 420%N;
     precommit_py := Some (fun _ => Returned Mock.checklist);
     filesystem := Mock.MockFilesystem |}.

(** C5, as stated, fails: for an extra positional argument the error line
    is a fixed text that does not name the argument. *)
Lemma positional_argument_not_named :
  malformed (parsed (env_of ["check"; "extra"])) = true
  /\ offending_tokens (parsed (env_of ["check"; "extra"])) = ["extra"]
  /\ Main.run (env_of ["check"; "extra"]) =
     (1%Z, {| events :=
                [EvStderr "Error: precommit does not take positional arguments"];
              world := empty_world |})
  /\ ~ error_names_offender (env_of ["check"; "extra"]).
Proof.
  split; [reflexivity|]. split; [reflexivity|]. split; [reflexivity|].
  intros (line & tok & Hline & Htok & Hin).
  change (offending_tokens (parsed (env_of ["check"; "extra"])))
    with ["extra"] in Htok.
  change (events (snd (Main.run (env_of ["check"; "extra"]))))
    with [EvStderr "Error: precommit does not take positional arguments"]
    in Hline.
  apply elem_of_cons in Htok as [->|Htok]; [|by apply not_elem_of_nil in Htok].
  apply elem_of_cons in Hline as [Hline|Hline];
    [|by apply not_elem_of_nil in Hline].
  injection Hline as ->. vm_compute in Hin. discriminate.
Qed.

(** ** The engine: what each executed check reported *)

Definition is_problem (v : outcome (option Problem)) : bool :=
  match v with
  | Returned (Some _) => true
  | _ => false
  end.

(** The repository view of a run that starts in the world [w]. *)
Definition repository_at (self : Precommit.t) (w : World) : Repository :=
  {| staged := get_staged_files (Precommit.fs self) w;
     staged_for_deletion := get_staged_for_deletion_files (Precommit.fs self) w;
     unstaged := get_unstaged_files (Precommit.fs self) w |}.

(** What the check [c] reports when check mode reaches it in the world [w]:
    the engine has printed the header by then. *)
Definition check_verdict (self : Precommit.t) (repository : Repository)
    (c : Checker) (w : World) : outcome (option Problem) :=
  fst (check c (Precommit.fs self) repository
         (snd (Console.print (Precommit.header c) w))).

(** The reports of the checks that check mode executes, in order; the run
    stops at a check that raises. *)
Fixpoint check_verdicts (self : Precommit.t) (repository : Repository)
    (checks : list Checker) (n : Precommit.Counters) (w : World)
  : list (outcome (option Problem)) :=
  match checks with
  | [] => []
  | c :: rest =>
      (if Precommit.should_run self c
       then [check_verdict self repository c w] else [])
      ++ match Precommit.check_one self repository c n w with
         | (Returned n', w') => check_verdicts self repository rest n' w'
         | (Raised _, _) => []
         end
  end.

Lemma print_message_returns (self : Precommit.t) (p : Problem) (w : World) :
  exists w',
    Precommit.print_message self p w = (Returned tt, w')
    /\ commands_run w' = commands_run w.
Proof.
  unfold Precommit.print_message.
  destruct (message p) as [msg|]; [|by exists w].
  destruct (Precommit.verbose self); [|by exists w].
  rewrite fs_print_run. by eexists.
Qed.

Lemma check_one_counts (self : Precommit.t) (repository : Repository)
    (c : Checker) (n n' : Precommit.Counters) (w w' : World) :
  Precommit.check_one self repository c n w = (Returned n', w') ->
  Precommit.problemsFound n'
  = (Precommit.problemsFound n
     + List.length
         (List.filter is_problem
            (if Precommit.should_run self c
             then [check_verdict self repository c w] else [])))%nat.
Proof.
  unfold Precommit.check_one, check_verdict, Precommit.invoke.
  destruct (Precommit.should_run self c).
  2:{ intros [= <- <-]. cbn. lia. }
  unfold bind at 1. cbn [Console.print].
  unfold bind at 1.
  destruct (check c _ repository _) as [[[p|]|e] w1]; cbn [fst].
  - unfold bind at 1. unfold bind at 1.
    destruct (print_message_returns self p w1) as (w2 & -> & _).
    cbn. intros [= <- <-]. cbn. lia.
  - cbn. intros [= <- <-]. cbn. lia.
  - done.
Qed.

Lemma check_loop_counts (self : Precommit.t) (repository : Repository)
    (checks : list Checker) (n n' : Precommit.Counters) (w w' : World) :
  for_each checks (Precommit.check_one self repository) n w
  = (Returned n', w') ->
  Precommit.problemsFound n'
  = (Precommit.problemsFound n
     + List.length
         (List.filter is_problem
            (check_verdicts self repository checks n w)))%nat.
Proof.
  revert n w. induction checks as [|c checks IH]; intros n w; cbn.
  - intros [= <- <-]. lia.
  - unfold bind at 1.
    destruct (Precommit.check_one self repository c n w) as [[n1|e] w1] eqn:Hone;
      [|done].
    intros Hrest. apply IH in Hrest. apply check_one_counts in Hone.
    rewrite List.filter_app, length_app. lia.
Qed.

Lemma check_counting_loop (self : Precommit.t) (n : Precommit.Counters)
    (w w' : World) :
  Precommit.check_counting self w = (Returned n, w') ->
  exists w1,
    for_each (Precommit.checks self)
      (Precommit.check_one self (repository_at self w)) Precommit.zero w
    = (Returned n, w1).
Proof.
  unfold Precommit.check_counting. unfold bind at 1.
  cbn [Precommit.get_repository]. fold (repository_at self w).
  unfold bind at 1.
  destruct (for_each _ _ _ w) as [[n1|e] w1]; [|done].
  cbn. intros [= <- _]. by exists w1.
Qed.

Lemma no_problem_filter (vs : list (outcome (option Problem))) :
  Forall (fun v => v = Returned None) vs -> List.filter is_problem vs = [].
Proof. induction 1 as [|v vs -> _ IH]; [done|]. by cbn. Qed.

(** C3. Once the configuration is loaded, the [check] subcommand ends with
    status 1 when the run counted a problem and with status 0 when no executed
    check reported one, the count being the number of executed checks that
    reported a problem; the [fix] subcommand ends with status 0 whenever the
    engine finishes without an exception, whatever it detected or fixed. *)
Theorem exit_status_of_check_and_fix (env : Env) (args : Main.Args)
    (precommit : Precommit.t) (p p' : Proc) :
  Main.get_precommit env args p = (Returned precommit, p') ->
  (forall n w',
     Precommit.check_counting precommit (world p') = (Returned n, w') ->
     let verdicts :=
       check_verdicts precommit (repository_at precommit (world p'))
         (Precommit.checks precommit) Precommit.zero (world p') in
     Precommit.problemsFound n = List.length (List.filter is_problem verdicts)
     /\ ((0 < Precommit.problemsFound n)%nat ->
         Main.exit_status (fst (Main.main_check env args p)) = 1%Z)
     /\ (Forall (fun v => v = Returned None) verdicts ->
         Main.exit_status (fst (Main.main_check env args p)) = 0%Z))
  /\ (forall n w',
        Precommit.fix_counting precommit (world p') = (Returned n, w') ->
        Main.exit_status (fst (Main.main_fix env args p)) = 0%Z).
Proof.
  intros Hload. split.
  - intros n w' Hrun verdicts.
    assert (Precommit.problemsFound n
            = List.length (List.filter is_problem verdicts)) as Hcount.
    { destruct (check_counting_loop _ _ _ _ Hrun) as (w1 & Hloop).
      apply check_loop_counts in Hloop. cbn in Hloop. exact Hloop. }
    assert (Main.main_check env args p =
            (if (0 <? Precommit.problemsFound n)%nat
             then Raised (SystemExit 1) else Returned tt,
             {| events := events p'; world := w' |})) as Hmain.
    { unfold Main.main_check. unfold bind at 1. rewrite Hload.
      unfold bind at 1. unfold Main.lift, Precommit.check.
      unfold bind at 1. rewrite Hrun. cbn.
      by destruct (Precommit.problemsFound n). }
    rewrite Hmain. cbn [fst]. split; [done|]. split.
    + intros Hpos. apply Nat.ltb_lt in Hpos. by rewrite Hpos.
    + intros Hnone. rewrite Hcount. by rewrite no_problem_filter.
  - intros n w' Hrun. unfold Main.main_fix. unfold bind at 1. rewrite Hload.
    unfold Main.lift, Precommit.fix_. unfold bind at 1. by rewrite Hrun.
Qed.

Definition loaded_args : Main.Args :=
  {| Main.subcommand := "check"; Main.positional := [];
     Main.flags := Main.fill_defaults [("--all", true)] |}.

Lemma exit_status_of_check_and_fix_witness :
  Main.exit_status
    (fst (Main.main_check (env_of ["--all"]) loaded_args initial_proc)) = 1%Z
  /\ Main.exit_status
       (fst (Main.main_fix (env_of ["--all"]) loaded_args initial_proc)) = 0%Z.
Proof.
  destruct (exit_status_of_check_and_fix (env_of ["--all"]) loaded_args
              Mock.precommit initial_proc
              {| events := [EvLoadConfig "/repo/precommit.py"];
                 world := empty_world |} eq_refl) as [Hcheck Hfix].
  split.
  - edestruct Hcheck as (_ & Hone & _); [vm_compute; reflexivity|].
    apply Hone. vm_compute. lia.
  - eapply Hfix. vm_compute. reflexivity.
Defined.

(** ** Fix mode *)

(** The console a check finds when fix mode runs it: empty, its lines
    being held back. *)
Definition blank (w : World) : World :=
  {| commands_run := commands_run w; captured_output := [] |}.

(** The checks fix mode executes, each with what it reported, in order; the
    run stops at an exception. *)
Fixpoint fix_verdicts (self : Precommit.t) (repository : Repository)
    (checks : list Checker) (n : Precommit.Counters) (w : World)
  : list (Checker * outcome (option Problem)) :=
  match checks with
  | [] => []
  | c :: rest =>
      (if Precommit.should_run self c
       then [(c, fst (check c (Precommit.fs self) repository (blank w)))]
       else [])
      ++ match Precommit.fix_one self repository c n w with
         | (Returned n', w') => fix_verdicts self repository rest n' w'
         | (Raised _, _) => []
         end
  end.

(** An entry of the log that enters the report: a problem with an autofix,
    from a fixable check. *)
Definition fixed_entry (e : Checker * outcome (option Problem)) : bool :=
  match snd e with
  | Returned r => Precommit.reported (fst e) r
  | Raised _ => false
  end.

Definition fixable_entry (e : Checker * outcome (option Problem)) : bool :=
  is_fixable (fst e).

Lemma captured_returned {A} (c : Action A) (w w1 : World) (a : A) :
  c (blank w) = (Returned a, w1) ->
  Precommit.captured c w =
  (Returned (a, captured_output w1),
   {| commands_run := commands_run w1; captured_output := captured_output w |}).
Proof. unfold Precommit.captured. fold (blank w). by intros ->. Qed.

Lemma fix_one_skipped (self : Precommit.t) (repository : Repository)
    (c : Checker) (n : Precommit.Counters) (w w1 : World)
    (r : option Problem) :
  Precommit.should_run self c = true ->
  check c (Precommit.fs self) repository (blank w) = (Returned r, w1) ->
  Precommit.reported c r = false ->
  Precommit.fix_one self repository c n w =
  (Returned (Precommit.count_fixable c n),
   {| commands_run := commands_run w1; captured_output := captured_output w |}).
Proof.
  intros Hrun Hcheck Hrep. unfold Precommit.fix_one, Precommit.invoke.
  rewrite Hrun. unfold bind at 1.
  rewrite (captured_returned _ w w1 r Hcheck). cbn [fst snd].
  destruct r as [p|]; [|done]. cbn in Hrep. by rewrite Hrep.
Qed.

Lemma fix_one_counts (self : Precommit.t) (repository : Repository)
    (c : Checker) (n n' : Precommit.Counters) (w w' : World) :
  Precommit.fix_one self repository c n w = (Returned n', w') ->
  let entries :=
    if Precommit.should_run self c
    then [(c, fst (check c (Precommit.fs self) repository (blank w)))]
    else [] in
  Precommit.problemsFound n'
  = (Precommit.problemsFound n
     + List.length (List.filter fixed_entry entries))%nat
  /\ Precommit.problemsFixed n'
     = (Precommit.problemsFixed n
        + List.length (List.filter fixed_entry entries))%nat
  /\ Precommit.fixableChecksRun n'
     = (Precommit.fixableChecksRun n
        + List.length (List.filter fixable_entry entries))%nat.
Proof.
  destruct (Precommit.should_run self c) eqn:Hrun.
  2:{ unfold Precommit.fix_one. rewrite Hrun. intros [= <- <-]. cbn. lia. }
  destruct (check c (Precommit.fs self) repository (blank w))
    as [[r|e] w1] eqn:Hcheck.
  2:{ unfold Precommit.fix_one, Precommit.invoke, Precommit.captured.
      rewrite Hrun. unfold bind at 1. fold (blank w). by rewrite Hcheck. }
  destruct (Precommit.reported c r) eqn:Hrep.
  2:{ rewrite (fix_one_skipped _ _ _ _ _ _ _ Hrun Hcheck Hrep).
      intros [= <- <-]. cbn. unfold fixed_entry, fixable_entry. cbn.
      rewrite Hrep. cbn. destruct (is_fixable c); cbn; lia. }
  unfold Precommit.fix_one, Precommit.invoke.
  rewrite Hrun. unfold bind at 1.
  rewrite (captured_returned _ w w1 r Hcheck). cbn [fst snd].
  destruct r as [p|]; [|done]. cbn in Hrep. rewrite Hrep.
  apply andb_true_iff in Hrep as [Hfixable Hauto].
  unfold bind at 1. cbn [Console.print].
  unfold bind at 1. rewrite print_lines_run.
  unfold bind at 1.
  match goal with
  | |- context [Precommit.print_message self p ?v] =>
      destruct (print_message_returns self p v) as (w2 & -> & _)
  end.
  unfold bind at 1.
  match goal with
  | |- context [match ?act w2 with _ => _ end] =>
      destruct (act w2) as [[[]|e] w3]; [|done]
  end.
  cbn. intros [= <- <-]. cbn. unfold fixed_entry, fixable_entry. cbn.
  rewrite Hfixable, Hauto. cbn. lia.
Qed.

Lemma fix_loop_counts (self : Precommit.t) (repository : Repository)
    (checks : list Checker) (n n' : Precommit.Counters) (w w' : World) :
  for_each checks (Precommit.fix_one self repository) n w = (Returned n', w') ->
  let log := fix_verdicts self repository checks n w in
  Precommit.problemsFound n'
  = (Precommit.problemsFound n + List.length (List.filter fixed_entry log))%nat
  /\ Precommit.problemsFixed n'
     = (Precommit.problemsFixed n
        + List.length (List.filter fixed_entry log))%nat
  /\ Precommit.fixableChecksRun n'
     = (Precommit.fixableChecksRun n
        + List.length (List.filter fixable_entry log))%nat.
Proof.
  revert n w. induction checks as [|c checks IH]; intros n w; cbn.
  - intros [= <- <-]. lia.
  - unfold bind at 1.
    destruct (Precommit.fix_one self repository c n w) as [[n1|e] w1] eqn:Hone;
      [|done].
    intros Hrest. apply IH in Hrest. apply fix_one_counts in Hone.
    cbn zeta in *. rewrite !List.filter_app, !length_app. lia.
Qed.

Lemma fix_counting_inv (self : Precommit.t) (n : Precommit.Counters)
    (w w' : World) :
  Precommit.fix_counting self w = (Returned n, w') ->
  exists w1 w2,
    for_each (Precommit.checks self)
      (Precommit.fix_one self (repository_at self w)) Precommit.zero w
    = (Returned n, w1)
    /\ Precommit.restage self (repository_at self w) n w1 = (Returned tt, w2)
    /\ w' = {| commands_run := commands_run w2;
               captured_output :=
                 captured_output w2 ++ [""; Precommit.fix_summary n] |}.
Proof.
  unfold Precommit.fix_counting. unfold bind at 1.
  cbn [Precommit.get_repository]. fold (repository_at self w).
  unfold bind at 1.
  destruct (for_each _ _ _ w) as [[n1|e] w1]; [|done].
  unfold bind at 1.
  destruct (Precommit.restage self _ n1 w1) as [[[]|e] w2] eqn:Hre; [|done].
  cbn. intros [= <- <-]. exists w1, w2.
  split; [done|]. split; [done|]. by rewrite <- app_assoc.
Qed.

(** C6. In fix mode a check that runs and reports a problem without an
    autofix, or that is not fixable, leaves the console as it was and adds
    neither to [problemsFound] nor to [problemsFixed]. At the end of a run the
    two counters both equal the number of executed checks that were fixable
    and reported a problem with an autofix, [fixableChecksRun] is the number
    of executed fixable checks, and the last line printed is the summary
    made of these three numbers. *)
Theorem fix_mode_skips_unfixable (self : Precommit.t) :
  (forall (repository : Repository) (c : Checker) (n : Precommit.Counters)
          (w w1 : World) (p : Problem),
     Precommit.should_run self c = true ->
     check c (Precommit.fs self) repository (blank w)
     = (Returned (Some p), w1) ->
     Precommit.has_autofix p = false \/ is_fixable c = false ->
     exists n' w',
       Precommit.fix_one self repository c n w = (Returned n', w')
       /\ captured_output w' = captured_output w
       /\ Precommit.problemsFound n' = Precommit.problemsFound n
       /\ Precommit.problemsFixed n' = Precommit.problemsFixed n)
  /\ (forall (n : Precommit.Counters) (w w' : World),
        Precommit.fix_counting self w = (Returned n, w') ->
        let log :=
          fix_verdicts self (repository_at self w) (Precommit.checks self)
            Precommit.zero w in
        Precommit.problemsFound n = List.length (List.filter fixed_entry log)
        /\ Precommit.problemsFixed n
           = List.length (List.filter fixed_entry log)
        /\ Precommit.fixableChecksRun n
           = List.length (List.filter fixable_entry log)
        /\ exists before,
             captured_output w'
             = before
               ++ [""; "Ran " +:+ Py.str_of_nat (Precommit.fixableChecksRun n)
                       +:+ " fixable checks. Detected "
                       +:+ Py.str_of_nat (Precommit.problemsFound n)
                       +:+ " issues. Fixed "
                       +:+ Py.str_of_nat (Precommit.problemsFixed n)
                       +:+ " of them."]).
Proof.
  split.
  - intros repository c n w w1 p Hrun Hcheck Hskip.
    assert (Precommit.reported c (Some p) = false) as Hrep.
    { cbn. destruct Hskip as [-> | ->]; [apply andb_false_r | done]. }
    rewrite (fix_one_skipped _ _ _ _ _ _ _ Hrun Hcheck Hrep).
    by eexists _, _.
  - intros n w w' Hrun log.
    destruct (fix_counting_inv _ _ _ _ Hrun) as (w1 & w2 & Hloop & _ & ->).
    apply fix_loop_counts in Hloop. cbn in Hloop.
    destruct Hloop as (Hfound & Hfixed & Hfixable).
    repeat split; [done..|]. by eexists.
Qed.

Definition silent_checks : list Checker :=
  [checker_DoNotSubmit BaseCheck.default;
   checker_NoStagedAndUnstagedChanges BaseCheck.default].

Definition silent_precommit : Precommit.t :=
  {| Precommit.checks := silent_checks;
     Precommit.fs := Mock.MockFilesystem;
     Precommit.check_all := true;
     Precommit.dry_run := false;
     Precommit.verbose := false |}.

Definition silent_counters : Precommit.Counters :=
  {| Precommit.checksRun := 2; Precommit.fixableChecksRun := 1;
     Precommit.problemsFound := 1; Precommit.fixableCount := 1;
     Precommit.problemsFixed := 1 |}.

Definition silent_world : World :=
  {| commands_run :=
       [["git"; "add"; "main.py"]; ["git"; "add"; "main.py"; "ignoreme.py"]];
     captured_output :=
       ["o--[ NoStagedAndUnstagedChanges ]"; "|  main.py"; "o--[ fixed! ]";
        ""; "";
        "Ran 1 fixable checks. Detected 1 issues. Fixed 1 of them."] |}.

Lemma fix_mode_skips_unfixable_witness :
  (exists n' w',
     Precommit.fix_one silent_precommit
       (repository_at silent_precommit empty_world)
       (checker_DoNotSubmit BaseCheck.default) Precommit.zero empty_world
     = (Returned n', w')
     /\ captured_output w' = []
     /\ Precommit.problemsFound n' = 0%nat
     /\ Precommit.problemsFixed n' = 0%nat)
  /\ Precommit.fix_counting silent_precommit empty_world
     = (Returned silent_counters, silent_world)
  /\ exists before,
       captured_output silent_world
       = before
         ++ [""; "Ran 1 fixable checks. Detected 1 issues. Fixed 1 of them."].
Proof.
  destruct (fix_mode_skips_unfixable silent_precommit) as [Hstep Hrun].
  split.
  - eapply (Hstep (repository_at silent_precommit empty_world)
              (checker_DoNotSubmit BaseCheck.default) Precommit.zero
              empty_world); [reflexivity | vm_compute; reflexivity | by left].
  - split; [vm_compute; reflexivity|].
    destruct (Hrun silent_counters empty_world silent_world)
      as (_ & _ & _ & Hlast); [vm_compute; reflexivity|].
    exact Hlast.
Defined.

(** ** The final re-stage and what else the engine runs *)

Section Frame.

(** The commands a piece of code may add to the record. *)
Variable ok : list string -> Prop.

(** From [w] to [w'] the record of commands only grew, by commands that
    are [ok]. *)
Definition grows (w w' : World) : Prop :=
  exists added,
    commands_run w' = commands_run w ++ added /\ Forall ok added.

Lemma grows_refl (w w' : World) :
  commands_run w' = commands_run w -> grows w w'.
Proof. intros Heq. exists []. by rewrite app_nil_r. Qed.

Lemma grows_trans (w1 w2 w3 : World) :
  grows w1 w2 -> grows w2 w3 -> grows w1 w3.
Proof.
  intros (a & Ha & Hoka) (b & Hb & Hokb). exists (a ++ b).
  split; [by rewrite Hb, Ha, app_assoc | by apply Forall_app].
Qed.

Lemma grows_bind {A B} (c : Action A) (k : A -> Action B) (w : World) :
  grows w (snd (c w)) ->
  (forall a w1, c w = (Returned a, w1) -> grows w1 (snd (k a w1))) ->
  grows w (snd (bind c k w)).
Proof.
  intros Hc Hk. unfold bind.
  destruct (c w) as [[a|e] w1] eqn:Hcw; [|done].
  eapply grows_trans; [exact Hc | by apply Hk].
Qed.

Lemma grows_for_each {A B} (l : list A) (body : A -> B -> Action B)
    (acc : B) (w : World) :
  (forall x acc v, x ∈ l -> grows v (snd (body x acc v))) ->
  grows w (snd (for_each l body acc w)).
Proof.
  revert acc w. induction l as [|x l IH]; intros acc w Hbody; cbn.
  - by apply grows_refl.
  - apply grows_bind; [apply Hbody; left|].
    intros acc' w1 _. apply IH. intros y acc0 v Hy. apply Hbody. by right.
Qed.

Lemma grows_print (line : string) (w : World) :
  grows w (snd (Console.print line w)).
Proof. by apply grows_refl. Qed.

Lemma grows_print_lines (lines : list string) (w : World) :
  grows w (snd (Console.print_lines lines w)).
Proof. rewrite print_lines_run. by apply grows_refl. Qed.

Lemma grows_print_message (self : Precommit.t) (p : Problem) (w : World) :
  grows w (snd (Precommit.print_message self p w)).
Proof.
  destruct (print_message_returns self p w) as (w' & -> & Hcmds).
  by apply grows_refl.
Qed.

Lemma grows_run (fs : Filesystem) (cmd : list string) (w : World) :
  ok cmd -> grows w (snd (Fs.run fs cmd w)).
Proof.
  intros Hok. exists [cmd]. split; [apply fs_run_commands|].
  by apply Forall_singleton.
Qed.

Lemma grows_captured {A} (c : Action A) (w : World) :
  grows (blank w) (snd (c (blank w))) ->
  grows w (snd (Precommit.captured c w)).
Proof.
  unfold Precommit.captured. fold (blank w).
  by destruct (c (blank w)) as [[a|e] w1].
Qed.

End Frame.

(** [cmd] is the command autofix of a problem that a check of the run can
    report. *)
Definition autofix_of (self : Precommit.t) (repository : Repository)
    (cmd : list string) : Prop :=
  exists c v p v',
    c ∈ Precommit.checks self
    /\ check c (Precommit.fs self) repository v = (Returned (Some p), v')
    /\ autofix p = Some (AutofixCommand cmd).

(** The commands of the checks themselves and of the callables they hand
    out as autofix all satisfy [allowed]. *)
Definition checks_run_only (allowed : list string -> Prop)
    (self : Precommit.t) (repository : Repository) : Prop :=
  (forall c v,
     c ∈ Precommit.checks self ->
     grows allowed v (snd (check c (Precommit.fs self) repository v)))
  /\ (forall c v p v' call u,
        c ∈ Precommit.checks self ->
        check c (Precommit.fs self) repository v = (Returned (Some p), v') ->
        autofix p = Some (AutofixCallable call) ->
        grows allowed u (snd (call u))).

Lemma fix_one_frame (allowed : list string -> Prop) (self : Precommit.t)
    (repository : Repository) (c : Checker) (n : Precommit.Counters)
    (w : World) :
  checks_run_only allowed self repository ->
  c ∈ Precommit.checks self ->
  grows (fun cmd => allowed cmd \/ autofix_of self repository cmd) w
    (snd (Precommit.fix_one self repository c n w)).
Proof.
  intros [Hchecks Hcalls] Hc.
  set (Q := fun cmd => allowed cmd \/ autofix_of self repository cmd).
  assert (forall v v', grows allowed v v' -> grows Q v v') as Hweaken.
  { intros v v' (added & Hadded & Hok). exists added. split; [done|].
    eapply Forall_impl; [exact Hok|]. intros cmd Hcmd. by left. }
  unfold Precommit.fix_one, Precommit.invoke.
  destruct (Precommit.should_run self c); [|by apply grows_refl].
  apply grows_bind.
  { apply grows_captured, Hweaken, Hchecks, Hc. }
  intros [r lines] w1 Hcap. cbn [fst snd].
  destruct r as [p|]; [|by apply grows_refl].
  destruct (is_fixable c && Precommit.has_autofix p); [|by apply grows_refl].
  assert (check c (Precommit.fs self) repository (blank w)
          = (Returned (Some p), {| commands_run := commands_run w1;
                                   captured_output := lines |})) as Hcheck.
  { unfold Precommit.captured in Hcap. fold (blank w) in Hcap.
    destruct (check c (Precommit.fs self) repository (blank w))
      as [[r|e] v1]; [|done].
    injection Hcap as -> <- <-. by destruct v1. }
  apply grows_bind; [apply grows_print|]. intros _ w2 _.
  apply grows_bind; [apply grows_print_lines|]. intros _ w3 _.
  apply grows_bind; [apply grows_print_message|]. intros _ w4 _.
  apply grows_bind.
  { destruct (autofix p) as [[cmd|call]|] eqn:Hauto.
    - destruct (Precommit.dry_run self); [by apply grows_refl|].
      cbn [Precommit.apply_autofix].
      apply grows_bind; [|intros; by apply grows_refl].
      apply grows_run. right.
      exists c, (blank w), p,
        {| commands_run := commands_run w1; captured_output := lines |}.
      done.
    - destruct (Precommit.dry_run self); [by apply grows_refl|].
      cbn [Precommit.apply_autofix]. apply Hweaken.
      by eapply Hcalls.
    - by apply grows_refl. }
  intros _ w5 _.
  apply grows_bind; [apply grows_print|]. intros _ w6 _.
  apply grows_bind; [apply grows_print|]. intros _ w7 _.
  by apply grows_refl.
Qed.

Lemma restage_commands (self : Precommit.t) (repository : Repository)
    (n : Precommit.Counters) (w : World) :
  commands_run (snd (Precommit.restage self repository n w))
  = commands_run w
    ++ (if (0 <? Precommit.problemsFixed n)%nat
           && negb (Precommit.dry_run self)
        then [["git"; "add"] ++ Precommit.restage_files repository]
        else []).
Proof.
  unfold Precommit.restage.
  destruct ((0 <? Precommit.problemsFixed n)%nat
            && negb (Precommit.dry_run self)).
  - unfold bind.
    pose proof (fs_run_commands (Precommit.fs self)
                  (["git"; "add"] ++ Precommit.restage_files repository) w)
      as Hrun.
    by destruct (Fs.run _ _ w) as [[r|e] w1].
  - cbn. by rewrite app_nil_r.
Qed.

Lemma mem_spec (x : string) (l : list string) :
  Precommit.mem x l = true <-> x ∈ l.
Proof.
  unfold Precommit.mem. rewrite existsb_exists. split.
  - intros (y & Hin & ->%String.eqb_eq). by apply list_elem_of_In.
  - intros Hin. exists x. split; [by apply list_elem_of_In|].
    apply String.eqb_refl.
Qed.

Lemma restage_files_spec (repository : Repository) (path : string) :
  path ∈ Precommit.restage_files repository <->
  (path ∈ staged repository \/ path ∈ unstaged repository)
  /\ path ∉ staged_for_deletion repository.
Proof.
  unfold Precommit.restage_files.
  rewrite list_elem_of_In, filter_In, in_app_iff, filter_In,
    <- !list_elem_of_In, !negb_true_iff, <- !not_true_iff_false, !mem_spec.
  destruct (decide (path ∈ staged repository)); tauto.
Qed.

(** C7. A fix run that ends without an exception, with at least one problem
    fixed and without dry-run, hands [git add] to the gateway as its last
    command, after the loop over the checks, with every originally staged
    and every originally unstaged file that is not staged for deletion: the
    list depends on the repository view only, not on the fixes. Without a
    fix, or under dry-run, no such command follows the loop. Beyond what the
    checks run themselves, every command of the run is the autofix of a
    reported problem or this final re-stage. *)
Theorem fix_mode_final_restage (self : Precommit.t) (n : Precommit.Counters)
    (w w' : World) :
  Precommit.fix_counting self w = (Returned n, w') ->
  let repository := repository_at self w in
  (exists w1,
     for_each (Precommit.checks self) (Precommit.fix_one self repository)
       Precommit.zero w = (Returned n, w1)
     /\ ((0 < Precommit.problemsFixed n)%nat ->
         Precommit.dry_run self = false ->
         commands_run w'
         = commands_run w1
           ++ [["git"; "add"] ++ Precommit.restage_files repository])
     /\ (Precommit.problemsFixed n = 0%nat \/ Precommit.dry_run self = true ->
         commands_run w' = commands_run w1))
  /\ (forall path,
        path ∈ Precommit.restage_files repository <->
        (path ∈ staged repository \/ path ∈ unstaged repository)
        /\ path ∉ staged_for_deletion repository)
  /\ (forall allowed : list string -> Prop,
        checks_run_only allowed self repository ->
        grows (fun cmd =>
                 allowed cmd
                 \/ autofix_of self repository cmd
                 \/ cmd = ["git"; "add"] ++ Precommit.restage_files repository)
          w w').
Proof.
  intros Hrun repository.
  destruct (fix_counting_inv _ _ _ _ Hrun) as (w1 & w2 & Hloop & Hre & ->).
  fold repository in Hloop, Hre.
  pose proof (restage_commands self repository n w1) as Hcmds.
  rewrite Hre in Hcmds. cbn [snd] in Hcmds.
  split.
  { exists w1. split; [done|]. cbn [commands_run]. split.
    - intros Hfixed Hdry. apply Nat.ltb_lt in Hfixed.
      by rewrite Hcmds, Hfixed, Hdry.
    - intros [Hnone | Hdry]; rewrite Hcmds.
      + rewrite Hnone. cbn. by rewrite app_nil_r.
      + rewrite Hdry, andb_false_r. by rewrite app_nil_r. }
  split; [apply restage_files_spec|].
  intros allowed Hallowed.
  set (Q := fun cmd =>
              allowed cmd \/ autofix_of self repository cmd
              \/ cmd = ["git"; "add"] ++ Precommit.restage_files repository).
  apply (grows_trans Q w w1).
  - pose proof (grows_for_each
                  (fun cmd => allowed cmd \/ autofix_of self repository cmd)
                  (Precommit.checks self)
                  (Precommit.fix_one self repository) Precommit.zero w) as Hg.
    rewrite Hloop in Hg. cbn [snd] in Hg.
    destruct Hg as (added & Hadded & Hok).
    { intros c acc v Hc. by apply fix_one_frame. }
    exists added. split; [done|].
    eapply Forall_impl; [exact Hok|]. intros cmd [Hcmd|Hcmd]; unfold Q; tauto.
  - eexists. split; [exact Hcmds|].
    destruct (_ && _); [|done]. apply Forall_singleton. unfold Q. tauto.
Qed.

Definition mock_fix_counters : Precommit.Counters :=
  {| Precommit.checksRun := 4; Precommit.fixableChecksRun := 2;
     Precommit.problemsFound := 2; Precommit.fixableCount := 2;
     Precommit.problemsFixed := 2 |}.

(** What [test_fix_command] expects: the commands in [commands_run], and the
    console. *)
Definition mock_fix_world : World :=
  {| commands_run :=
       [["git"; "add"; "main.py"];
        ["black"; "--check"; "main.py"];
        ["black"; "main.py"];
        ["git"; "add"; "main.py"; "ignoreme.py"]];
     captured_output :=
       ["o--[ NoStagedAndUnstagedChanges ]"; "|  main.py"; "o--[ fixed! ]"; "";
        "o--[ PythonFormat ]"; "|  <failed output of black command>";
        "o--[ fixed! ]"; ""; "";
        "Ran 2 fixable checks. Detected 2 issues. Fixed 2 of them."] |}.

Lemma fix_mode_final_restage_witness :
  Precommit.fix_counting Mock.precommit empty_world
  = (Returned mock_fix_counters, mock_fix_world)
  /\ exists w1,
       for_each (Precommit.checks Mock.precommit)
         (Precommit.fix_one Mock.precommit
            (repository_at Mock.precommit empty_world))
         Precommit.zero empty_world
       = (Returned mock_fix_counters, w1)
       /\ commands_run mock_fix_world
          = commands_run w1 ++ [["git"; "add"; "main.py"; "ignoreme.py"]].
Proof.
  split; [vm_compute; reflexivity|].
  destruct (fix_mode_final_restage Mock.precommit mock_fix_counters
              empty_world mock_fix_world)
    as ((w1 & Hloop & Hlast & _) & _); [vm_compute; reflexivity|].
  exists w1. split; [exact Hloop|].
  apply Hlast; [cbn; lia | reflexivity].
Defined.

(** ** The scenarios of tests.py and a few runs *)

Example test_fix_command :
  Precommit.fix_ Mock.precommit empty_world = (Returned tt, mock_fix_world).
Proof. vm_compute. reflexivity. Qed.

Example test_check_command :
  Precommit.check Mock.precommit empty_world
  = (Returned true,
     {| commands_run := [["black"; "--check"; "main.py"]];
        captured_output :=
          ["o--[ DoNotSubmit ]"; "|  ignoreme.py"; "|  main.py";
           "o--[ failed! ]"; "";
           "o--[ NoStagedAndUnstagedChanges ]"; "|  main.py";
           "o--[ failed! ]"; "";
           "o--[ NoWhitespaceInFilePath ]"; "o--[ passed! ]"; "";
           "o--[ PythonFormat ]"; "|  <failed output of black command>";
           "o--[ failed! ]"; ""; "";
           "Ran 4 checks. Detected 3 issues. Fix 2 of them with 'precommit fix'."] |}).
Proof. vm_compute. reflexivity. Qed.

Example dry_run_runs_no_fix :
  Main.run (env_of ["fix"; "--dry-run"; "--all"])
  = (0%Z,
     {| events := [EvChdir "/repo"; EvLoadConfig "/repo/precommit.py"];
        world :=
          {| commands_run := [["black"; "--check"; "main.py"]];
             captured_output :=
               ["o--[ NoStagedAndUnstagedChanges ]"; "|  main.py";
                "o--[ would fix! ]"; "";
                "o--[ PythonFormat ]"; "|  <failed output of black command>";
                "o--[ would fix! ]"; ""; "";
                "Ran 2 fixable checks. Detected 2 issues. Fixed 2 of them."] |} |}).
Proof. vm_compute. reflexivity. Qed.

Example short_flag_named_in_long_form :
  Main.run (env_of ["-f"])
  = (1%Z,
     {| events :=
          [EvStderr "Error: flag --force not valid for check subcommand"];
        world := empty_world |}).
Proof. vm_compute. reflexivity. Qed.

Example color_conflict_before_unknown_flag :
  Main.run (env_of ["--color"; "--no-color"; "--bogus"])
  = (1%Z,
     {| events := [EvStderr "Error: --color and --no-color are incompatible"];
        world := empty_world |}).
Proof. vm_compute. reflexivity. Qed.

Example double_dash_ends_flags :
  Main.run (env_of ["--"; "--all"])
  = (1%Z,
     {| events := [EvStderr "Error: unknown subcommand: --all"];
        world := empty_world |}).
Proof. vm_compute. reflexivity. Qed.

(** An empty list given as fix command is falsy: the check is fixable, but
    in aggregate mode its problem carries no autofix. *)
Example empty_fix_command :
  Command.check
    {| Command.base := BaseCheck.default; Command.name := "Lint";
       Command.cmd := ["lint"]; Command.fix_ := Some [];
       Command.pass_files := true; Command.separately := false |}
    Mock.MockFilesystem
    {| staged := ["a"]; staged_for_deletion := []; unstaged := [] |}
    empty_world
  = (Returned (Some {| message := None; autofix := None |}),
     {| commands_run := [["lint"; "a"]]; captured_output := [] |}).
Proof. vm_compute. reflexivity. Qed.

Example fnmatch_suffix : Glob.fnmatch "src/main.py" "*.py" = true.
Proof. reflexivity. Qed.

Example fnmatch_class : Glob.fnmatch "a1.py" "[a-c][!x]?py" = true.
Proof. reflexivity. Qed.

Example fnmatch_negated_class : Glob.fnmatch "a1.py" "[!a-c]*" = false.
Proof. reflexivity. Qed.

Example fnmatch_open_bracket : Glob.fnmatch "[x" "[?" = true.
Proof. reflexivity. Qed.

Example fnmatch_bracket_first : Glob.fnmatch "]" "[]]" = true.
Proof. reflexivity. Qed.

Example str_of_nat_runs :
  Py.str_of_nat 120 = "120" /\ Py.str_of_nat 0 = "0" /\ Py.str_of_nat 7 = "7".
Proof. repeat split; reflexivity. Qed.

Example sorted_runs :
  Py.sorted ["main.py"; "ignoreme.py"; "Z"] = ["Z"; "ignoreme.py"; "main.py"].
Proof. vm_compute. reflexivity. Qed.

Example upper_runs :
  Py.upper (Py.encode_ascii "do Not submit{`")
  = Py.encode_ascii "DO NOT SUBMIT{`".
Proof. reflexivity. Qed.

(** * Further properties of checks.py *)

(** ** The checks that only look *)

Lemma scan_world (fs : Filesystem) (paths acc : list string) (w : World) :
  snd (DoNotSubmit.scan fs paths w) = w
  /\ forall acc,
       snd (for_each paths
              (fun path bad_paths =>
                 let* content := Fs.open_read fs path in
                 if DoNotSubmit.flagged content
                 then ret (bad_paths ++ [path])
                 else ret bad_paths) acc w) = w.
Proof.
  assert (forall acc0,
            snd (for_each paths
                   (fun path bad_paths =>
                      let* content := Fs.open_read fs path in
                      if DoNotSubmit.flagged content
                      then ret (bad_paths ++ [path])
                      else ret bad_paths) acc0 w) = w) as Hall.
  { induction paths as [|path paths IH]; intros acc0; cbn; [done|].
    unfold bind at 1. unfold bind at 1. unfold Fs.open_read at 1.
    destruct (file_bytes fs path w) as [content|]; [|done].
    destruct (DoNotSubmit.flagged content); unfold ret at 1; apply IH. }
  split; [apply Hall | exact Hall].
Qed.

(** X2. The three checks that inspect the staged files themselves never
    hand a command to the gateway, whatever they find and even when a file
    cannot be opened: the record of commands is as before. *)
Theorem predicate_checks_run_no_command (self : BaseCheck.t)
    (fs : Filesystem) (repository : Repository) (w : World) :
  commands_run (snd (NoStagedAndUnstagedChanges.check self fs repository w))
  = commands_run w
  /\ commands_run (snd (DoNotSubmit.check self fs repository w))
     = commands_run w
  /\ commands_run (snd (NoWhitespaceInFilePath.check self fs repository w))
     = commands_run w.
Proof.
  split; [|split].
  - unfold NoStagedAndUnstagedChanges.check.
    destruct (bool_decide _); [|done].
    unfold bind. by rewrite fs_print_run.
  - unfold DoNotSubmit.check. unfold bind at 1.
    destruct (scan_world fs (BaseCheck.filter self (staged repository)) [] w)
      as [Hw _].
    destruct (DoNotSubmit.scan fs _ w) as [[bad|e] w1]; cbn in Hw; subst w1;
      [|done].
    destruct (Py.truthy bad); [|done].
    unfold bind. by rewrite fs_print_run.
  - unfold NoWhitespaceInFilePath.check.
    destruct (Py.truthy _); [|done].
    unfold bind. by rewrite fs_print_run.
Qed.

(** ** Whitespace in file paths *)

(** X1. [NoWhitespaceInFilePath.check] lists exactly the filtered staged
    paths that hold a character for which [isspace] is true. Paths are
    strings of code points below 256; there, these are the characters 9 to
    13, 28 to 32, 133 (NEL) and 160 (the no-break space). With at least one
    such path the check prints them sorted and returns a problem with the
    message [file path contains whitespace] and no autofix; with none it
    returns nothing and prints nothing. *)
Theorem whitespace_check_spec (self : BaseCheck.t) (fs : Filesystem)
    (repository : Repository) (w : World) :
  let bad_paths :=
    List.filter NoWhitespaceInFilePath.has_space
      (BaseCheck.filter self (staged repository)) in
  (forall path,
     path ∈ bad_paths <->
     path ∈ BaseCheck.filter self (staged repository)
     /\ exists c, c ∈ Py.chars path /\ Py.isspace c = true)
  /\ (forall c,
        Py.isspace c
        = let n := N_of_ascii c in
          ((9 <=? n) && (n <=? 13) || (28 <=? n) && (n <=? 32)
           || (n =? 133) || (n =? 160))%N)
  /\ (bad_paths <> [] ->
      NoWhitespaceInFilePath.check self fs repository w =
      (Returned (Some {| message := Some "file path contains whitespace";
                         autofix := None |}),
       {| commands_run := commands_run w;
          captured_output :=
            captured_output w
            ++ List.map (fun l => Fs.margin +:+ l)
                 (Py.split_lines (Py.join Py.nl (Py.sorted bad_paths))) |}))
  /\ (bad_paths = [] ->
      NoWhitespaceInFilePath.check self fs repository w = (Returned None, w)).
Proof.
  intros bad_paths. split; [|split; [|split]].
  - intros path. unfold bad_paths.
    rewrite list_elem_of_In, filter_In, <- list_elem_of_In.
    unfold NoWhitespaceInFilePath.has_space. rewrite existsb_exists.
    split; intros [Hin (c & Hc & Hspace)]; (split; [done|]); exists c;
      (split; [by apply list_elem_of_In | done]).
  - intros c. by destruct c as [[] [] [] [] [] [] [] []].
  - intros Hbad. unfold NoWhitespaceInFilePath.check. fold bad_paths.
    destruct bad_paths as [|path bad]; [done|]. cbn [Py.truthy].
    unfold bind. by rewrite fs_print_run.
  - intros Hbad. unfold NoWhitespaceInFilePath.check. fold bad_paths.
    by rewrite Hbad.
Qed.

(** A path with a no-break space between its two letters. *)
Definition nbsp_path : string :=
  "a" +:+ String (ascii_of_nat 160) EmptyString +:+ "b".

Lemma whitespace_check_spec_witness :
  NoWhitespaceInFilePath.check BaseCheck.default Mock.MockFilesystem
    {| staged := ["my file.py"; "main.py"; nbsp_path];
       staged_for_deletion := []; unstaged := [] |} empty_world
  = (Returned (Some {| message := Some "file path contains whitespace";
                       autofix := None |}),
     {| commands_run := [];
        captured_output := ["|  " +:+ nbsp_path; "|  my file.py"] |}).
Proof.
  destruct (whitespace_check_spec BaseCheck.default Mock.MockFilesystem
    {| staged := ["my file.py"; "main.py"; nbsp_path];
       staged_for_deletion := []; unstaged := [] |} empty_world)
    as (_ & _ & Hsome & _).
  rewrite Hsome; [vm_compute; reflexivity | discriminate].
Defined.

(** ** A file that cannot be opened *)

(** X3. When one of the filtered staged files cannot be opened while those
    before it can, [DoNotSubmit.check] raises the error of that file: it
    returns no verdict, prints nothing and leaves the world as it was, also
    when an earlier file holds the text. *)
Theorem do_not_submit_unreadable (self : BaseCheck.t) (fs : Filesystem)
    (repository : Repository) (w : World)
    (before after : list string) (path : string) :
  BaseCheck.filter self (staged repository) = before ++ path :: after ->
  (forall p, p ∈ before -> is_Some (file_bytes fs p w)) ->
  file_bytes fs path w = None ->
  DoNotSubmit.check self fs repository w = (Raised (OSError path), w).
Proof.
  intros Hpaths Hread Hnone. unfold DoNotSubmit.check, DoNotSubmit.scan.
  rewrite Hpaths. unfold bind at 1.
  assert (forall acc,
            for_each (before ++ path :: after)
              (fun path bad_paths =>
                 let* content := Fs.open_read fs path in
                 if DoNotSubmit.flagged content
                 then ret (bad_paths ++ [path])
                 else ret bad_paths) acc w
            = (Raised (OSError path), w)) as Hscan.
  { clear Hpaths. induction before as [|p before IH]; intros acc.
    - cbn. unfold bind at 1. unfold bind at 1. unfold Fs.open_read at 1.
      by rewrite Hnone.
    - cbn. unfold bind at 1. unfold bind at 1. unfold Fs.open_read at 1.
      destruct (Hread p) as [content ->]; [left|].
      destruct (DoNotSubmit.flagged content); unfold ret at 1;
        apply IH; intros q Hq; apply Hread; by right. }
  by rewrite Hscan.
Qed.

Lemma do_not_submit_unreadable_witness :
  DoNotSubmit.check BaseCheck.default
    (Mock.scripted [] [("a.py", Py.encode_ascii "do not submit")]
       ["a.py"; "gone.py"] [] [])
    {| staged := ["a.py"; "gone.py"]; staged_for_deletion := [];
       unstaged := [] |} empty_world
  = (Raised (OSError "gone.py"), empty_world).
Proof.
  apply (do_not_submit_unreadable BaseCheck.default
           (Mock.scripted [] [("a.py", Py.encode_ascii "do not submit")]
              ["a.py"; "gone.py"] [] [])
           {| staged := ["a.py"; "gone.py"]; staged_for_deletion := [];
              unstaged := [] |} empty_world ["a.py"] [] "gone.py").
  - reflexivity.
  - intros p Hp. apply elem_of_cons in Hp as [->|Hp]; [by eexists|].
    by apply not_elem_of_nil in Hp.
  - reflexivity.
Defined.

(** ** Only the staged files count *)

(** X8. [DoNotSubmit], [NoWhitespaceInFilePath] and every command check
    read nothing of the repository view but the staged list: on two views
    with the same staged files they behave alike, whatever is unstaged or
    staged for deletion. *)
Theorem checks_read_staged_only (self : BaseCheck.t) (c : Command.t)
    (fs : Filesystem) (repository1 repository2 : Repository) (w : World) :
  staged repository1 = staged repository2 ->
  DoNotSubmit.check self fs repository1 w
  = DoNotSubmit.check self fs repository2 w
  /\ NoWhitespaceInFilePath.check self fs repository1 w
     = NoWhitespaceInFilePath.check self fs repository2 w
  /\ Command.check c fs repository1 w = Command.check c fs repository2 w.
Proof.
  intros Hs.
  unfold DoNotSubmit.check, NoWhitespaceInFilePath.check, Command.check.
  by rewrite Hs.
Qed.

Lemma checks_read_staged_only_witness :
  Command.check black_check Mock.MockFilesystem
    {| staged := ["main.py"]; staged_for_deletion := []; unstaged := [] |}
    empty_world
  = Command.check black_check Mock.MockFilesystem
      {| staged := ["main.py"]; staged_for_deletion := ["old.py"];
         unstaged := ["main.py"; "other.py"] |} empty_world.
Proof.
  apply (checks_read_staged_only BaseCheck.default black_check
           Mock.MockFilesystem
           {| staged := ["main.py"]; staged_for_deletion := [];
              unstaged := [] |}
           {| staged := ["main.py"]; staged_for_deletion := ["old.py"];
              unstaged := ["main.py"; "other.py"] |} empty_world eq_refl).
Defined.

(** ** What a command check runs *)

Lemma exit_codes_commands (fs : Filesystem) (cmds : list (list string))
    (w w' : World) (codes : list Z) :
  exit_codes fs cmds w = (Returned codes, w') ->
  commands_run w' = commands_run w ++ cmds.
Proof.
  revert w codes. induction cmds as [|cmd cmds IH]; intros w codes; cbn.
  - intros [= _ <-]. by rewrite app_nil_r.
  - unfold bind.
    pose proof (fs_run_commands fs cmd w) as Hcmd.
    destruct (Fs.run fs cmd w) as [[r|e] w1]; [|done]. cbn in Hcmd.
    destruct (exit_codes fs cmds w1) as [[codes'|e] w2] eqn:Hrest; [|done].
    intros [= _ <-]. apply IH in Hrest. rewrite Hrest, Hcmd.
    by rewrite <- app_assoc.
Qed.

(** X4. When its commands can be launched, one run of [Command.check] hands
    to the gateway exactly its invocations, in order, and nothing else. In
    aggregate mode that is always one command: when no staged file passes
    the filter the check command still runs, without file arguments. In
    [separately] mode with no file left nothing runs and nothing is
    reported. *)
Theorem command_check_commands (self : Command.t) (fs : Filesystem)
    (repository : Repository) (w w' : World) (codes : list Z) :
  exit_codes fs (invocations self repository) w = (Returned codes, w') ->
  commands_run (snd (Command.check self fs repository w))
  = commands_run w ++ invocations self repository
  /\ (Command.separately self = false ->
      BaseCheck.filter (Command.base self) (staged repository) = [] ->
      invocations self repository = [Command.cmd self])
  /\ (Command.separately self = true ->
      BaseCheck.filter (Command.base self) (staged repository) = [] ->
      Command.check self fs repository w = (Returned None, w)).
Proof.
  intros Hcodes. split; [|split].
  - rewrite command_check_codes, Hcodes. cbn [snd].
    by eapply exit_codes_commands.
  - intros Hsep Hnone. unfold invocations. rewrite Hsep, Hnone.
    destruct (Command.pass_files self); by rewrite app_nil_r.
  - intros Hsep Hnone. rewrite command_check_codes.
    unfold invocations. by rewrite Hsep, Hnone.
Qed.

Definition lint_readme : Command.t :=
  {| Command.base := {| BaseCheck.slow := false; BaseCheck.include := ["*.md"];
                        BaseCheck.exclude := [] |};
     Command.name := "Lint";
     Command.cmd := ["mdlint"; "--strict"];
     Command.fix_ := None;
     Command.pass_files := true;
     Command.separately := false |}.

Lemma command_check_commands_witness :
  commands_run
    (snd (Command.check lint_readme Mock.MockFilesystem
            {| staged := ["main.py"]; staged_for_deletion := [];
               unstaged := [] |} empty_world))
  = [["mdlint"; "--strict"]].
Proof.
  destruct (command_check_commands lint_readme Mock.MockFilesystem
    {| staged := ["main.py"]; staged_for_deletion := []; unstaged := [] |}
    empty_world
    {| commands_run := [["mdlint"; "--strict"]]; captured_output := [] |}
    [1%Z] eq_refl) as (Hcmds & _).
  exact Hcmds.
Defined.

(** X5. A command that cannot be launched ends the check with the error of
    that command: the invocations before it have run, it is the last one
    recorded, and the ones after it are not run. *)
Theorem command_check_launch_failure (self : Command.t) (fs : Filesystem)
    (repository : Repository) (w : World)
    (before after : list (list string)) (cmd : list string) :
  invocations self repository = before ++ cmd :: after ->
  (forall c v, c ∈ before -> is_Some (run_result fs c v)) ->
  (forall v, run_result fs cmd v = None) ->
  fst (Command.check self fs repository w)
  = Raised (OSError (Py.join " " cmd))
  /\ commands_run (snd (Command.check self fs repository w))
     = commands_run w ++ before ++ [cmd].
Proof.
  intros Hinv Hbefore Hcmd.
  rewrite command_check_codes, Hinv.
  assert (forall v,
            exists v',
              exit_codes fs (before ++ cmd :: after) v
              = (Raised (OSError (Py.join " " cmd)), v')
              /\ commands_run v' = commands_run v ++ before ++ [cmd])
    as Hrun.
  { clear Hinv. induction before as [|c before IH]; intros v.
    - cbn. unfold bind. rewrite fs_run_failed by done. by eexists.
    - cbn. unfold bind at 1.
      destruct (Hbefore c v) as [[rc out] Hc]; [left|].
      destruct (fs_run_launched fs c v rc out Hc) as (v1 & -> & Hv1).
      destruct (IH (fun c0 v0 Hc0 =>
                      Hbefore c0 v0 (proj2 (elem_of_cons _ _ _) (or_intror Hc0)))
                  v1) as (v' & Hv' & Hcmds).
      exists v'. unfold bind. rewrite Hv'. split; [done|].
      rewrite Hcmds, Hv1. by rewrite <- app_assoc. }
  destruct (Hrun w) as (w' & -> & Hcmds). done.
Qed.

(** A gateway on which [flake8] is not installed and everything else
    succeeds. *)
Definition no_flake8 : Filesystem :=
  {| run_result := fun cmd _ =>
       match cmd with
       | "flake8" :: _ => None
       | _ => Some (0%Z, [])
       end;
     file_bytes := fun _ _ => None;
     get_staged_files := fun _ => ["a.py"; "b.py"];
     get_staged_for_deletion_files := fun _ => [];
     get_unstaged_files := fun _ => [] |}.

Definition flake8_each : Command.t :=
  {| Command.base := BaseCheck.default;
     Command.name := "PythonLint";
     Command.cmd := ["flake8"];
     Command.fix_ := None;
     Command.pass_files := true;
     Command.separately := true |}.

Lemma command_check_launch_failure_witness :
  Command.check flake8_each no_flake8
    {| staged := ["a.py"; "b.py"]; staged_for_deletion := []; unstaged := [] |}
    empty_world
  = (Raised (OSError "flake8 a.py"),
     {| commands_run := [["flake8"; "a.py"]]; captured_output := [] |}).
Proof.
  destruct (command_check_launch_failure flake8_each no_flake8
    {| staged := ["a.py"; "b.py"]; staged_for_deletion := []; unstaged := [] |}
    empty_world [] [["flake8"; "b.py"]] ["flake8"; "a.py"])
    as [Hfst Hsnd].
  - reflexivity.
  - intros c v Hc. by apply not_elem_of_nil in Hc.
  - reflexivity.
  - reflexivity.
Defined.

(** X6. In [separately] mode the autofix of the problem is the declared fix
    command as it stands: the files of the failing invocations are not
    appended to it, and an empty fix list is handed on as it is. *)
Theorem command_separately_autofix (self : Command.t) (fs : Filesystem)
    (repository : Repository) (w w' : World) (codes : list Z) :
  Command.separately self = true ->
  exit_codes fs (invocations self repository) w = (Returned codes, w') ->
  Exists (fun rc => rc <> 0%Z) codes ->
  Command.check self fs repository w =
  (Returned (Some {| message := None;
                     autofix := option_map AutofixCommand
                                  (Command.fix_ self) |}), w').
Proof.
  intros Hsep Hcodes Hex. rewrite command_check_codes, Hcodes, Hsep.
  apply existsb_nonzero in Hex. by rewrite Hex.
Qed.

Definition black_each : Command.t :=
  {| Command.base := BaseCheck.default;
     Command.name := "PythonFormat";
     Command.cmd := ["black"; "--check"];
     Command.fix_ := Some ["black"];
     Command.pass_files := true;
     Command.separately := true |}.

Lemma command_separately_autofix_witness :
  Command.check black_each
    (Mock.scripted [(["black"; "--check"; "b.py"], 1%Z)] [] [] [] [])
    {| staged := ["a.py"; "b.py"]; staged_for_deletion := []; unstaged := [] |}
    empty_world
  = (Returned (Some {| message := None;
                       autofix := Some (AutofixCommand ["black"]) |}),
     {| commands_run := [["black"; "--check"; "a.py"];
                         ["black"; "--check"; "b.py"]];
        captured_output := [] |}).
Proof.
  apply (command_separately_autofix black_each
           (Mock.scripted [(["black"; "--check"; "b.py"], 1%Z)] [] [] [] [])
           {| staged := ["a.py"; "b.py"]; staged_for_deletion := [];
              unstaged := [] |}
           empty_world
           {| commands_run := [["black"; "--check"; "a.py"];
                               ["black"; "--check"; "b.py"]];
              captured_output := [] |}
           [0%Z; 1%Z] eq_refl).
  - vm_compute. reflexivity.
  - apply Exists_cons_tl, Exists_cons_hd. lia.
Defined.

(** ** The ready-made command checks *)

(** X19. A failing [PythonFormat] in aggregate mode offers [black] with the
    same extra arguments and the same files as the check that failed: the
    Python files among the staged ones, and those of the extra include
    patterns, without the excluded ones. *)
Theorem python_format_autofix (args include : list string) (kwargs : Kwargs)
    (fs : Filesystem) (repository : Repository) (w w' : World) (rc : Z) :
  kw_separately kwargs = false ->
  let files :=
    BaseCheck.filter (base_of ("*.py" :: include) kwargs) (staged repository) in
  Fs.run fs ("black" :: "--check" :: args ++ files) w
  = (Returned {| returncode := rc |}, w') ->
  rc <> 0%Z ->
  exists c,
    PythonFormat args include kwargs = Returned c
    /\ is_fixable (checker_Command c) = true
    /\ check (checker_Command c) fs repository w =
       (Returned (Some {| message := None;
                          autofix := Some (AutofixCommand
                                             ("black" :: args ++ files)) |}),
        w').
Proof.
  intros Hsep files Hrun Hrc.
  eexists. split.
  { unfold PythonFormat, Command.init. rewrite andb_false_r. reflexivity. }
  split; [reflexivity|].
  cbn [check checker_Command]. unfold Command.check.
  cbn [Command.separately Command.pass_files Command.cmd Command.base
       Command.fix_].
  rewrite Hsep. unfold bind.
  change ((["black"; "--check"] ++ args)
          ++ BaseCheck.filter (base_of (["*.py"] ++ include) kwargs)
               (staged repository))
    with ("black" :: "--check" :: args ++ files).
  rewrite Hrun. unfold Command.nonzero. cbn [returncode].
  apply Z.eqb_neq in Hrc. by rewrite Hrc.
Qed.

Lemma python_format_autofix_witness :
  exists c,
    PythonFormat ["-l"; "100"] []
      {| kw_separately := false; kw_slow := false;
         kw_exclude := ["ignoreme.py"] |} = Returned c
    /\ check (checker_Command c) Mock.MockFilesystem
         {| staged := ["main.py"; "ignoreme.py"; "README"];
            staged_for_deletion := []; unstaged := [] |} empty_world
       = (Returned (Some {| message := None;
                            autofix := Some (AutofixCommand
                                               ["black"; "-l"; "100";
                                                "main.py"]) |}),
          {| commands_run := [["black"; "--check"; "-l"; "100"; "main.py"]];
             captured_output := ["|  <failed output of black command>"] |}).
Proof.
  destruct (python_format_autofix ["-l"; "100"] []
    {| kw_separately := false; kw_slow := false;
       kw_exclude := ["ignoreme.py"] |}
    Mock.MockFilesystem
    {| staged := ["main.py"; "ignoreme.py"; "README"];
       staged_for_deletion := []; unstaged := [] |} empty_world
    {| commands_run := [["black"; "--check"; "-l"; "100"; "main.py"]];
       captured_output := ["|  <failed output of black command>"] |}
    1%Z eq_refl eq_refl ltac:(lia)) as (c & Hc & _ & Hcheck).
  exists c. split; [exact Hc | exact Hcheck].
Defined.

(** * Further properties of main.py *)

(** ** Dictionaries *)

Lemma dict_get_set_same {V} (k : string) (v : V) (d : Dict.t V) :
  Dict.get k (Dict.set k v d) = Some v.
Proof.
  induction d as [|[k' v'] d IH]; cbn.
  - by rewrite String.eqb_refl.
  - destruct (String.eqb_spec k k') as [->|Hne]; cbn.
    + by rewrite String.eqb_refl.
    + by destruct (String.eqb_spec k k').
Qed.

Lemma dict_get_set_other {V} (k k' : string) (v : V) (d : Dict.t V) :
  k <> k' -> Dict.get k' (Dict.set k v d) = Dict.get k' d.
Proof.
  intros Hne. induction d as [|[k0 v0] d IH]; cbn.
  - by destruct (String.eqb_spec k' k) as [->|_].
  - destruct (String.eqb_spec k k0) as [->|Hk]; cbn.
    + destruct (String.eqb_spec k' k0); [done|done].
    + destruct (String.eqb_spec k' k0); [done|exact IH].
Qed.

Lemma dict_has_keys {V} (k : string) (d : Dict.t V) :
  Dict.has k d = true <-> k ∈ Dict.keys d.
Proof.
  unfold Dict.has, Dict.keys. induction d as [|[k' v'] d IH]; cbn.
  - split; [done | by intros ?%not_elem_of_nil].
  - rewrite elem_of_cons.
    destruct (String.eqb_spec k k') as [->|Hne]; [by intuition|].
    rewrite IH. by intuition.
Qed.

Lemma dict_keys_set {V} (k : string) (v : V) (d : Dict.t V) :
  Dict.keys (Dict.set k v d)
  = if Dict.has k d then Dict.keys d else Dict.keys d ++ [k].
Proof.
  unfold Dict.has, Dict.keys. induction d as [|[k' v'] d IH]; cbn; [done|].
  destruct (String.eqb_spec k k') as [->|Hne]; cbn; [done|].
  rewrite IH. by destruct (Dict.get k d).
Qed.

Lemma dict_set_nodup {V} (k : string) (v : V) (d : Dict.t V) :
  NoDup (Dict.keys d) -> NoDup (Dict.keys (Dict.set k v d)).
Proof.
  intros Hd. rewrite dict_keys_set.
  destruct (Dict.has k d) eqn:Hhas; [done|].
  apply NoDup_app. split; [done|]. split; [|apply NoDup_singleton].
  intros x Hx ->%list_elem_of_singleton.
  apply dict_has_keys in Hx. congruence.
Qed.

Lemma dict_set_values {V} (P : V -> Prop) (k : string) (v : V)
    (d : Dict.t V) :
  P v -> Forall (fun kv => P (snd kv)) d ->
  Forall (fun kv => P (snd kv)) (Dict.set k v d).
Proof.
  intros Hv. induction 1 as [|[k' v'] d Hkv Hd IH]; cbn.
  - by apply Forall_singleton.
  - destruct (String.eqb k k'); by constructor.
Qed.

Lemma dict_get_values {V} (P : V -> Prop) (k : string) (v : V)
    (d : Dict.t V) :
  Forall (fun kv => P (snd kv)) d -> Dict.get k d = Some v -> P v.
Proof.
  induction 1 as [|[k' v'] d Hkv Hd IH]; cbn; [done|].
  destruct (String.eqb k k'); [by intros [= <-] | exact IH].
Qed.

(** ** Parsing the command line *)

(** An argument that [parse_args] reads as a flag, when it comes before
    [--]. *)
Definition flagish (arg : string) : bool := Py.startswith arg "-".

(** The name under which a flag is stored: short flags by their long
    name. *)
Definition long_form (arg : string) : string :=
  match Dict.get arg Main.SHORT_FLAGS with
  | Some long => long
  | None => arg
  end.

Definition is_marker (arg : string) : bool := String.eqb arg "--".

(** The arguments before the first [--], and those behind it. *)
Fixpoint before_marker (argv : list string) : list string :=
  match argv with
  | [] => []
  | arg :: rest => if is_marker arg then [] else arg :: before_marker rest
  end.

Fixpoint after_marker (argv : list string) : list string :=
  match argv with
  | [] => []
  | arg :: rest => if is_marker arg then rest else after_marker rest
  end.

(** Switching on a series of flags, one after the other. *)
Definition set_flags (names : list string) (d : Dict.t bool) : Dict.t bool :=
  fold_left (fun d name => Dict.set name true d) names d.

Definition set_argv (env : Env) (argv : list string) : Env :=
  {| sys_argv := argv;
     environ_NO_COLOR := environ_NO_COLOR env;
     stdout_isatty := stdout_isatty env;
     git_toplevel := git_toplevel env;
     path_exists := path_exists env;
     os_error := os_error env;
     st_mode := st_mode env;
     precommit_py := precommit_py env;
     filesystem := filesystem env |}.

Lemma parse_loop_forced (argv positional : list string) (flags : Dict.t bool) :
  Main.parse_loop argv true positional flags
  = (positional ++ List.filter (fun arg => negb (is_marker arg)) argv, flags).
Proof.
  revert positional. induction argv as [|arg argv IH]; intros positional; cbn.
  - by rewrite app_nil_r.
  - unfold is_marker. destruct (String.eqb arg "--"); cbn; [apply IH|].
    rewrite IH. by rewrite <- app_assoc.
Qed.

Lemma parse_loop_spec (argv positional : list string) (flags : Dict.t bool) :
  Main.parse_loop argv false positional flags
  = (positional
     ++ List.filter (fun arg => negb (flagish arg)) (before_marker argv)
     ++ List.filter (fun arg => negb (is_marker arg)) (after_marker argv),
     set_flags (List.map long_form (List.filter flagish (before_marker argv)))
       flags).
Proof.
  revert positional flags.
  induction argv as [|arg argv IH]; intros positional flags.
  - cbn. by rewrite app_nil_r.
  - cbn [Main.parse_loop before_marker after_marker].
    change (String.eqb arg "--") with (is_marker arg).
    destruct (is_marker arg) eqn:Hmarker.
    { rewrite parse_loop_forced. by cbn. }
    cbn [negb andb]. change (Py.startswith arg "-") with (flagish arg).
    cbn [List.filter]. destruct (flagish arg) eqn:Hflag; cbn [negb].
    + cbn [List.map]. unfold set_flags. cbn [fold_left].
      fold (set_flags (List.map long_form
                         (List.filter flagish (before_marker argv)))
              (Dict.set (long_form arg) true flags)).
      rewrite <- IH. unfold long_form.
      by destruct (Dict.get arg Main.SHORT_FLAGS).
    + rewrite IH. by rewrite <- app_assoc.
Qed.

(** X9. In the loop of [parse_args] the first [--] ends the flags: of the
    arguments before it, those that start with a dash become flags and the
    others positional words; every argument behind it is a positional word,
    dash or not, except further [--], which are dropped. The marker itself
    is never a word and never a flag. *)
Theorem double_dash_ends_flag_parsing (argv : list string) :
  let result := Main.parse_loop argv false [] [] in
  fst result
  = List.filter (fun arg => negb (flagish arg)) (before_marker argv)
    ++ List.filter (fun arg => negb (is_marker arg)) (after_marker argv)
  /\ snd result
     = set_flags (List.map long_form (List.filter flagish (before_marker argv)))
         []
  /\ ("--" ∉ fst result)
  /\ ("--" ∉ Dict.keys (snd result))
  /\ (forall word,
        word ∈ after_marker argv -> word <> "--" -> word ∈ fst result).
Proof.
  intros result. unfold result. rewrite parse_loop_spec. cbn [fst snd app].
  split; [done|]. split; [done|].
  assert (forall l : list string,
            "--" ∉ List.filter (fun arg => negb (is_marker arg)) l) as Hafter.
  { intros l Hin. apply list_elem_of_In, filter_In in Hin as [_ Hm]. done. }
  assert (forall l : list string, "--" ∉ before_marker l) as Hbefore.
  { induction l as [|a l IH]; cbn; [apply not_elem_of_nil|].
    unfold is_marker. destruct (String.eqb_spec a "--") as [->|Hne].
    - apply not_elem_of_nil.
    - apply not_elem_of_cons. split; [congruence | done]. }
  split.
  { rewrite elem_of_app. intros [Hin|Hin]; [|by apply Hafter in Hin].
    apply list_elem_of_In, filter_In in Hin as [Hin _].
    by apply list_elem_of_In, Hbefore in Hin. }
  split.
  { assert (forall names d,
              "--" ∉ names -> "--" ∉ Dict.keys d ->
              "--" ∉ Dict.keys (set_flags names d)) as Hset.
    { induction names as [|name names IH]; intros d Hnames Hd; cbn; [done|].
      apply not_elem_of_cons in Hnames as [Hname Hnames].
      apply IH; [done|]. rewrite dict_keys_set.
      destruct (Dict.has name d); [done|].
      rewrite elem_of_app, list_elem_of_singleton. intros [?|?]; congruence. }
    apply Hset; [|apply not_elem_of_nil].
    intros Hin. apply list_elem_of_In, in_map_iff in Hin as (arg & Hlong & Hin).
    apply filter_In in Hin as [Hin _].
    apply list_elem_of_In in Hin.
    assert (arg <> "--") as Hne by (intros ->; by apply Hbefore in Hin).
    unfold long_form in Hlong. cbn in Hlong.
    destruct (String.eqb arg "-f"); [done|].
    destruct (String.eqb arg "-h"); [done|]. done. }
  intros word Hword Hne. apply elem_of_app. right.
  apply list_elem_of_In, filter_In. split; [by apply list_elem_of_In|].
  unfold is_marker. by apply negb_true_iff, String.eqb_neq.
Qed.

Lemma double_dash_ends_flag_parsing_example :
  Main.parse_loop ["-f"; "fix"; "--"; "--all"; "--"; "x"] false [] []
  = (["fix"; "--all"; "x"], [("--force", true)]).
Proof. reflexivity. Qed.

Lemma long_form_cases (arg : string) :
  arg = "-f" /\ long_form arg = "--force"
  \/ arg = "-h" /\ long_form arg = "--help"
  \/ arg <> "-f" /\ arg <> "-h" /\ long_form arg = arg.
Proof.
  unfold long_form. cbn.
  destruct (String.eqb_spec arg "-f") as [->|Hf]; [by left|].
  destruct (String.eqb_spec arg "-h") as [->|Hh]; [by right; left|].
  by right; right.
Qed.

Lemma long_form_flagish (arg : string) :
  flagish (long_form arg) = flagish arg.
Proof.
  destruct (long_form_cases arg)
    as [[-> ->] | [[-> ->] | (_ & _ & ->)]]; reflexivity.
Qed.

Lemma long_form_marker (arg : string) :
  is_marker (long_form arg) = is_marker arg.
Proof.
  destruct (long_form_cases arg)
    as [[-> ->] | [[-> ->] | (_ & _ & ->)]]; reflexivity.
Qed.

Lemma long_form_twice (arg : string) :
  long_form (long_form arg) = long_form arg.
Proof.
  destruct (long_form_cases arg)
    as [[-> ->] | [[-> ->] | (Hf & Hh & Heq)]]; [done..|].
  by rewrite !Heq.
Qed.

Lemma long_form_word (arg : string) :
  flagish arg = false -> long_form arg = arg.
Proof.
  destruct (long_form_cases arg)
    as [[-> ->] | [[-> ->] | (_ & _ & ->)]]; done.
Qed.

Lemma before_marker_long (argv : list string) :
  before_marker (List.map long_form argv)
  = List.map long_form (before_marker argv).
Proof.
  induction argv as [|arg argv IH]; cbn; [done|].
  rewrite long_form_marker. destruct (is_marker arg); [done|].
  cbn. by rewrite IH.
Qed.

Lemma filter_flagish_long (l : list string) :
  List.filter flagish (List.map long_form l)
  = List.map long_form (List.filter flagish l).
Proof.
  induction l as [|arg l IH]; cbn; [done|].
  rewrite long_form_flagish. destruct (flagish arg); cbn; by rewrite IH.
Qed.

Lemma parsed_flags (env : Env) :
  Main.flags (parsed env)
  = snd (Main.parse_loop (tl (sys_argv env)) false [] []).
Proof.
  unfold parsed, Main.parse_args.
  by destruct (fst (Main.parse_loop (tl (sys_argv env)) false [] [])).
Qed.

(** X10. The short flags are synonyms of the long ones: writing [--force]
    for [-f] and [--help] for [-h] anywhere on the command line leaves the
    parsed flags as they are, and the whole result of [parse_args] when the
    command line has no [--]. *)
Theorem short_flags_are_synonyms (env : Env) (prog : string)
    (argv : list string) :
  Main.flags (parsed (set_argv env (prog :: List.map long_form argv)))
  = Main.flags (parsed (set_argv env (prog :: argv)))
  /\ (("--" ∉ argv) ->
      parsed (set_argv env (prog :: List.map long_form argv))
      = parsed (set_argv env (prog :: argv))).
Proof.
  assert (snd (Main.parse_loop (List.map long_form argv) false [] [])
          = snd (Main.parse_loop argv false [] [])) as Hflags.
  { rewrite !parse_loop_spec. cbn [snd].
    rewrite before_marker_long, filter_flagish_long, map_map.
    f_equal. apply map_ext. intros arg. apply long_form_twice. }
  split.
  - rewrite !parsed_flags. exact Hflags.
  - intros Hno.
    assert (forall l : list string, ("--" ∉ l) ->
              before_marker l = l /\ after_marker l = []) as Hplain.
    { induction l as [|a l IH]; cbn; [done|]. intros Hl.
      apply not_elem_of_cons in Hl as [Ha Hl].
      unfold is_marker. destruct (String.eqb_spec a "--"); [congruence|].
      destruct (IH Hl) as [-> ->]. done. }
    assert (fst (Main.parse_loop (List.map long_form argv) false [] [])
            = fst (Main.parse_loop argv false [] [])) as Hwords.
    { rewrite !parse_loop_spec. cbn [fst app].
      rewrite before_marker_long.
      destruct (Hplain argv Hno) as [-> Hafter]. rewrite Hafter.
      assert (after_marker (List.map long_form argv) = []) as ->.
      { clear -Hafter Hno Hplain.
        induction argv as [|a l IH]; cbn in *; [done|].
        rewrite long_form_marker.
        apply not_elem_of_cons in Hno as [Ha Hl].
        unfold is_marker in *. destruct (String.eqb_spec a "--"); [congruence|].
        apply IH; [done | by apply Hplain]. }
      f_equal. clear. induction argv as [|a l IH]; cbn; [done|].
      rewrite long_form_flagish. destruct (flagish a) eqn:Ha; cbn; [done|].
      by rewrite IH, long_form_word. }
    unfold parsed, Main.parse_args. cbn [sys_argv set_argv tl].
    by rewrite Hwords, Hflags.
Qed.

Lemma short_flags_are_synonyms_witness :
  parsed (set_argv (env_of []) ["precommit"; "--help"; "init"; "--force"])
  = parsed (set_argv (env_of []) ["precommit"; "-h"; "init"; "-f"]).
Proof.
  apply (short_flags_are_synonyms (env_of []) "precommit"
           ["-h"; "init"; "-f"]).
  intros Hin. repeat (apply elem_of_cons in Hin as [Hin|Hin]; [done|]).
  by apply not_elem_of_nil in Hin.
Defined.

Lemma set_flags_keys (names : list string) (d : Dict.t bool) (k : string) :
  k ∈ Dict.keys (set_flags names d) <-> k ∈ names \/ k ∈ Dict.keys d.
Proof.
  revert d. induction names as [|name names IH]; intros d.
  - cbn. split; [by right | by intros [?%not_elem_of_nil|?]].
  - change (set_flags (name :: names) d)
      with (set_flags names (Dict.set name true d)).
    rewrite IH, dict_keys_set, elem_of_cons.
    destruct (Dict.has name d) eqn:Hhas.
    + apply dict_has_keys in Hhas. split; [tauto|].
      intros [[->|?]|?]; tauto.
    + rewrite elem_of_app, list_elem_of_singleton. tauto.
Qed.

Lemma set_flags_invariant (names : list string) (d : Dict.t bool) :
  NoDup (Dict.keys d) -> Forall (fun kv => snd kv = true) d ->
  NoDup (Dict.keys (set_flags names d))
  /\ Forall (fun kv => snd kv = true) (set_flags names d).
Proof.
  revert d. induction names as [|name names IH]; intros d Hd Hv; [done|].
  change (set_flags (name :: names) d)
    with (set_flags names (Dict.set name true d)).
  apply IH; [by apply dict_set_nodup|].
  by apply (dict_set_values (fun v => v = true)).
Qed.

(** X11. The flags that [parse_args] returns form a dictionary without
    repeated keys in which every value is [True]; a name is a key exactly
    when it is the long form of an argument that starts with a dash and
    stands before the first [--], so a flag given twice, or in both
    spellings, counts once. Without a positional word the subcommand is
    [check]; otherwise it is the first word and the others are the
    positional arguments. *)
Theorem parsed_flags_invariant (env : Env) :
  let words := fst (Main.parse_loop (tl (sys_argv env)) false [] []) in
  NoDup (Dict.keys (Main.flags (parsed env)))
  /\ Forall (fun kv => snd kv = true) (Main.flags (parsed env))
  /\ (forall k,
        k ∈ Dict.keys (Main.flags (parsed env)) <->
        exists arg,
          arg ∈ before_marker (tl (sys_argv env))
          /\ flagish arg = true /\ long_form arg = k)
  /\ match words with
     | [] =>
         Main.subcommand (parsed env) = "check"
         /\ Main.positional (parsed env) = []
     | word :: others =>
         Main.subcommand (parsed env) = word
         /\ Main.positional (parsed env) = others
     end.
Proof.
  intros words. rewrite parsed_flags, parse_loop_spec. cbn [snd].
  destruct (set_flags_invariant
              (List.map long_form
                 (List.filter flagish (before_marker (tl (sys_argv env)))))
              []) as [Hnodup Hvalues]; [constructor | constructor |].
  split; [done|]. split; [done|]. split.
  - intros k. rewrite set_flags_keys. split.
    + intros [Hin|Hin]; [|by apply not_elem_of_nil in Hin].
      apply list_elem_of_In, in_map_iff in Hin as (arg & Hlong & Hin).
      apply filter_In in Hin as [Hin Hflag].
      exists arg. by rewrite <- list_elem_of_In in Hin.
    + intros (arg & Hin & Hflag & Hlong). left.
      apply list_elem_of_In, in_map_iff. exists arg. split; [done|].
      apply filter_In. by rewrite <- list_elem_of_In.
  - unfold parsed, Main.parse_args. fold words. by destruct words.
Qed.

(** ** The first defect of a command line *)

(** The names of [l] in the order of their first occurrence. *)
Fixpoint first_occurrences (l : list string) : list string :=
  match l with
  | [] => []
  | x :: l' =>
      x :: List.filter (fun y => negb (String.eqb y x)) (first_occurrences l')
  end.

Lemma filter_twice {A} (f g : A -> bool) (l : list A) :
  List.filter f (List.filter g l) = List.filter (fun x => g x && f x) l.
Proof.
  induction l as [|x l IH]; cbn; [done|].
  destruct (g x); cbn; [|done]. destruct (f x); by rewrite IH.
Qed.

Lemma set_flags_order (names : list string) (d : Dict.t bool) :
  Dict.keys (set_flags names d)
  = Dict.keys d
    ++ List.filter (fun name => negb (Dict.has name d))
         (first_occurrences names).
Proof.
  revert d. induction names as [|name names IH]; intros d.
  - cbn. by rewrite app_nil_r.
  - change (set_flags (name :: names) d)
      with (set_flags names (Dict.set name true d)).
    rewrite IH, dict_keys_set. cbn [first_occurrences List.filter].
    assert (forall y,
              Dict.has y (Dict.set name true d)
              = String.eqb y name || Dict.has y d) as Hhas.
    { intros y. unfold Dict.has.
      destruct (String.eqb_spec y name) as [->|Hne].
      - by rewrite dict_get_set_same.
      - by rewrite dict_get_set_other. }
    rewrite filter_twice.
    destruct (Dict.has name d) eqn:Hname; cbn [negb].
    + f_equal. apply filter_ext. intros y. rewrite Hhas.
      destruct (String.eqb_spec y name) as [->|Hne]; [by rewrite Hname|done].
    + rewrite <- app_assoc. cbn [app]. do 2 f_equal.
      apply filter_ext. intros y. rewrite Hhas.
      by destruct (String.eqb y name).
Qed.

Lemma parsed_keys_order (env : Env) :
  Dict.keys (Main.flags (parsed env))
  = first_occurrences
      (List.map long_form
         (List.filter flagish (before_marker (tl (sys_argv env))))).
Proof.
  rewrite parsed_flags, parse_loop_spec. cbn [snd].
  rewrite set_flags_order. cbn [Dict.keys List.map app].
  apply filter_all. done.
Qed.

Lemma check_flags_first (sub : string) (keys : list string) :
  existsb (bad_flag sub) keys = true ->
  exists before flag after,
    keys = before ++ flag :: after
    /\ Forall (fun f => bad_flag sub f = false) before
    /\ (unknown_flag flag = true
        /\ Main.check_flags sub keys = Some ("unknown flag: " +:+ flag)
        \/ unknown_flag flag = false
           /\ invalid_flag sub flag = true
           /\ Main.check_flags sub keys
              = Some ("flag " +:+ flag +:+ " not valid for " +:+ sub
                      +:+ " subcommand")).
Proof.
  induction keys as [|flag keys IH]; [done|]. cbn [existsb Main.check_flags].
  destruct (bad_flag sub flag) eqn:Hflag.
  - intros _. exists [], flag, keys. split; [done|]. split; [constructor|].
    unfold bad_flag, unknown_flag, invalid_flag, Dict.has in *.
    destruct (Dict.get flag Main.FLAGS) as [valid|]; [right | by left].
    cbn in Hflag. by rewrite Hflag.
  - cbn [orb]. intros Hrest.
    destruct (IH Hrest) as (before & flag' & after & -> & Hgood & Hmsg).
    exists (flag :: before), flag', after. split; [done|].
    split; [by constructor|].
    unfold bad_flag, unknown_flag, invalid_flag, Dict.has in Hflag.
    destruct (Dict.get flag Main.FLAGS) as [valid|]; [|done].
    cbn in Hflag. by rewrite Hflag.
Qed.

(** C5, as amended. A malformed command line makes the program print one
    line on standard error and exit with status 1; by then it has done nothing
    else (but for the colour switch of [NO_COLOR]): the configuration was not
    loaded and the gateway was not used, so no check ran. The line reports
    the first defect in this order. Positional arguments come first, with a
    fixed text that names none of them. Without them, an unknown subcommand
    is reported by its name. With a known subcommand, [--color] together with
    [--no-color] is reported. Otherwise the line names, in its long form, the
    first flag that is unknown or not valid for the subcommand: no flag
    before it in the flag dictionary is at fault, and the dictionary keeps
    the flags in the order in which the command line first gives them. *)
Theorem malformed_command_line_rejected (env : Env) :
  malformed (parsed env) = true ->
  exists msg,
    Main.check_args (parsed env) = Some msg
    /\ Main.run env =
       (1%Z, {| events := color_events env ++ [EvStderr ("Error: " +:+ msg)];
                world := empty_world |})
    /\ (Main.positional (parsed env) <> []
        /\ msg = "precommit does not take positional arguments"
        \/ Main.positional (parsed env) = []
           /\ Main.mem (Main.subcommand (parsed env)) Main.SUBCOMMANDS = false
           /\ msg = "unknown subcommand: " +:+ Main.subcommand (parsed env)
           /\ Py.str_in (Main.subcommand (parsed env)) ("Error: " +:+ msg)
              = true
        \/ Main.positional (parsed env) = []
           /\ Main.mem (Main.subcommand (parsed env)) Main.SUBCOMMANDS = true
           /\ Dict.has "--no-color" (Main.flags (parsed env)) = true
           /\ Dict.has "--color" (Main.flags (parsed env)) = true
           /\ msg = "--color and --no-color are incompatible"
        \/ Main.positional (parsed env) = []
           /\ Main.mem (Main.subcommand (parsed env)) Main.SUBCOMMANDS = true
           /\ Dict.has "--no-color" (Main.flags (parsed env))
              && Dict.has "--color" (Main.flags (parsed env)) = false
           /\ exists before flag after,
                Dict.keys (Main.flags (parsed env)) = before ++ flag :: after
                /\ Forall
                     (fun f => bad_flag (Main.subcommand (parsed env)) f = false)
                     before
                /\ Py.str_in flag ("Error: " +:+ msg) = true
                /\ (unknown_flag flag = true
                    /\ msg = "unknown flag: " +:+ flag
                    \/ unknown_flag flag = false
                       /\ invalid_flag (Main.subcommand (parsed env)) flag
                          = true
                       /\ msg = "flag " +:+ flag +:+ " not valid for "
                                +:+ Main.subcommand (parsed env)
                                +:+ " subcommand"))
    /\ Dict.keys (Main.flags (parsed env))
       = first_occurrences
           (List.map long_form
              (List.filter flagish (before_marker (tl (sys_argv env))))).
Proof.
  intros Hbad. unfold malformed in Hbad.
  pose proof (parsed_keys_order env) as Horder.
  set (a := parsed env) in *.
  unfold Main.check_args in *.
  destruct (Main.positional a) as [|x xs] eqn:Hpos.
  2:{ cbn [List.length Nat.ltb Nat.leb].
      eexists. split; [reflexivity|]. split; [|split; [by left | done]].
      apply error_exit; [|done]. fold a. unfold Main.check_args.
      by rewrite Hpos. }
  cbn [List.length Nat.ltb Nat.leb orb] in *.
  assert (Main.check_args a =
          if negb (Main.mem (Main.subcommand a) Main.SUBCOMMANDS)
          then Some ("unknown subcommand: " +:+ Main.subcommand a)
          else if Dict.has "--no-color" (Main.flags a)
                  && Dict.has "--color" (Main.flags a)
          then Some "--color and --no-color are incompatible"
          else Main.check_flags (Main.subcommand a) (Dict.keys (Main.flags a)))
    as Hargs by (unfold Main.check_args; by rewrite Hpos).
  destruct (Main.mem (Main.subcommand a) Main.SUBCOMMANDS) eqn:Hsub.
  2:{ cbn [negb] in *. eexists. split; [reflexivity|].
      split; [by apply error_exit|]. split; [|done].
      right. left. repeat split.
      do 2 apply str_in_skip. apply str_in_refl. }
  cbn [negb orb] in *.
  destruct (Dict.has "--no-color" (Main.flags a)
            && Dict.has "--color" (Main.flags a)) eqn:Hcolor.
  { apply andb_true_iff in Hcolor as [Hno Hyes].
    eexists. split; [reflexivity|]. split; [by apply error_exit|].
    split; [|done]. right. right. left. done. }
  destruct (check_flags_first _ _ Hbad)
    as (before & flag & after & Hkeys & Hgood
        & [[Hunk Hmsg]|(Hknown & Hinv & Hmsg)]).
  - rewrite Hmsg in *. eexists. split; [reflexivity|].
    split; [by apply error_exit|]. split; [|done].
    right. right. right. split; [done|]. split; [done|]. split; [done|].
    exists before, flag, after. split; [done|]. split; [done|]. split.
    + do 2 apply str_in_skip. apply str_in_refl.
    + by left.
  - rewrite Hmsg in *. eexists. split; [reflexivity|].
    split; [by apply error_exit|]. split; [|done].
    right. right. right. split; [done|]. split; [done|]. split; [done|].
    exists before, flag, after. split; [done|]. split; [done|]. split.
    + do 2 apply str_in_skip. apply str_in_here.
    + by right.
Qed.

Lemma malformed_command_line_rejected_witness :
  malformed (parsed (env_of ["fix"; "--all"; "-f"; "--bogus"])) = true
  /\ Main.run (env_of ["fix"; "--all"; "-f"; "--bogus"]) =
     (1%Z, {| events :=
                [EvStderr "Error: flag --force not valid for fix subcommand"];
              world := empty_world |}).
Proof.
  split; [reflexivity|].
  destruct (malformed_command_line_rejected
              (env_of ["fix"; "--all"; "-f"; "--bogus"]) eq_refl)
    as (msg & Hmsg & Hrun & _).
  injection Hmsg as <-. exact Hrun.
Defined.

(** ** Accepted command lines *)

Lemma main_mem_spec (x : string) (l : list string) :
  Main.mem x l = true <-> x ∈ l.
Proof.
  unfold Main.mem. rewrite existsb_exists. split.
  - intros (y & Hin & ->%String.eqb_eq). by apply list_elem_of_In.
  - intros Hin. exists x. split; [by apply list_elem_of_In|].
    apply String.eqb_refl.
Qed.

(** X12. [check_args] lets a command line pass exactly when it has no
    positional argument, its subcommand is one of the four known ones,
    [--color] and [--no-color] do not both occur, and every flag is known
    and either valid for all subcommands or listed for this one. *)
Theorem check_args_accepts (a : Main.Args) :
  Main.check_args a = None <->
  Main.positional a = []
  /\ Main.subcommand a ∈ Main.SUBCOMMANDS
  /\ ~ (Dict.has "--no-color" (Main.flags a) = true
        /\ Dict.has "--color" (Main.flags a) = true)
  /\ forall flag,
       flag ∈ Dict.keys (Main.flags a) ->
       exists valid,
         Dict.get flag Main.FLAGS = Some valid
         /\ (valid = [] \/ Main.subcommand a ∈ valid).
Proof.
  assert (existsb (bad_flag (Main.subcommand a)) (Dict.keys (Main.flags a))
          = false <->
          forall flag,
            flag ∈ Dict.keys (Main.flags a) ->
            exists valid,
              Dict.get flag Main.FLAGS = Some valid
              /\ (valid = [] \/ Main.subcommand a ∈ valid)) as Hflags.
  { rewrite <- not_true_iff_false, existsb_exists. split.
    - intros Hnone flag Hin.
      destruct (bad_flag (Main.subcommand a) flag) eqn:Hbad.
      { exfalso. apply Hnone. exists flag. by rewrite <- list_elem_of_In. }
      unfold bad_flag, unknown_flag, invalid_flag, Dict.has in Hbad.
      destruct (Dict.get flag Main.FLAGS) as [valid|]; [|done].
      exists valid. split; [done|]. cbn in Hbad.
      destruct valid as [|v valid]; [by left|]. right.
      cbn [Py.truthy andb] in Hbad. apply negb_false_iff in Hbad.
      by apply main_mem_spec.
    - intros Hall (flag & Hin & Hbad). apply list_elem_of_In in Hin.
      destruct (Hall flag Hin) as (valid & Hget & Hvalid).
      unfold bad_flag, unknown_flag, invalid_flag, Dict.has in Hbad.
      rewrite Hget in Hbad. cbn in Hbad.
      destruct Hvalid as [-> | Hsub]; [done|].
      apply main_mem_spec in Hsub. rewrite Hsub in Hbad.
      by rewrite andb_false_r in Hbad. }
  unfold Main.check_args.
  destruct (Main.positional a) as [|x xs].
  2:{ cbn. split; [done | by intros [? _]]. }
  cbn [List.length Nat.ltb Nat.leb].
  destruct (Main.mem (Main.subcommand a) Main.SUBCOMMANDS) eqn:Hsub.
  2:{ cbn. split; [done|]. intros (_ & Hin & _).
      apply main_mem_spec in Hin. congruence. }
  apply main_mem_spec in Hsub. cbn [negb].
  destruct (Dict.has "--no-color" (Main.flags a)
            && Dict.has "--color" (Main.flags a)) eqn:Hcolor.
  { split; [done|]. intros (_ & _ & Hnot & _).
    by apply andb_true_iff in Hcolor. }
  apply andb_false_iff in Hcolor.
  split.
  - intros Hnone. split; [done|]. split; [done|]. split.
    + intros [? ?]. destruct Hcolor; congruence.
    + apply Hflags.
      destruct (existsb _ _) eqn:Hex; [|done].
      destruct (check_flags_some _ _ Hex)
        as (flag & _ & _ & [[Hmsg _]|[Hmsg _]]); congruence.
  - intros (_ & _ & _ & Hall). apply check_flags_none. by apply Hflags.
Qed.

(** ** After the arguments are accepted *)

Lemma fill_get (names : list string) (d : Dict.t bool) (k : string) :
  Dict.get k
    (fold_left
       (fun d flag => if Dict.has flag d then d else Dict.set flag false d)
       names d)
  = match Dict.get k d with
    | Some b => Some b
    | None => if Main.mem k names then Some false else None
    end.
Proof.
  revert d. induction names as [|name names IH]; intros d; cbn [fold_left].
  - by destruct (Dict.get k d).
  - rewrite IH. unfold Dict.has. cbn [Main.mem existsb].
    fold (Main.mem k names).
    destruct (Dict.get name d) as [b|] eqn:Hname.
    + destruct (Dict.get k d) eqn:Hk; [done|].
      destruct (String.eqb_spec k name) as [->|Hne]; [congruence|done].
    + destruct (String.eqb_spec k name) as [->|Hne].
      * by rewrite dict_get_set_same, Hname.
      * rewrite dict_get_set_other by done. done.
Qed.

Lemma parsed_values (env : Env) :
  Forall (fun kv => snd kv = true) (Main.flags (parsed env)).
Proof.
  rewrite parsed_flags, parse_loop_spec. cbn [snd].
  apply set_flags_invariant; constructor.
Qed.

Lemma accepted_parts (a : Main.Args) :
  Main.check_args a = None ->
  Main.positional a = []
  /\ forall flag,
       flag ∈ Dict.keys (Main.flags a) -> Dict.has flag Main.FLAGS = true.
Proof.
  unfold Main.check_args.
  destruct (Main.positional a) as [|x xs]; [|done].
  cbn [List.length Nat.ltb Nat.leb].
  destruct (negb (Main.mem (Main.subcommand a) Main.SUBCOMMANDS)); [done|].
  destruct (Dict.has "--no-color" (Main.flags a)
            && Dict.has "--color" (Main.flags a)); [done|].
  intros Hnone. split; [done|]. intros flag Hin.
  destruct (existsb (bad_flag (Main.subcommand a)) (Dict.keys (Main.flags a)))
    eqn:Hex.
  { destruct (check_flags_some _ _ Hex)
      as (f & _ & _ & [[Hmsg _]|[Hmsg _]]); congruence. }
  apply not_true_iff_false in Hex. rewrite existsb_exists in Hex.
  destruct (Dict.has flag Main.FLAGS) eqn:Hhas; [done|].
  exfalso. apply Hex. exists flag. split; [by apply list_elem_of_In|].
  unfold bad_flag, unknown_flag. by rewrite Hhas.
Qed.

(** The value [handle_args] leaves under [name]: whether the flag was
    given. *)
Lemma filled_flag (env : Env) (name : string) :
  name ∈ Dict.keys Main.FLAGS ->
  Dict.get name (Main.fill_defaults (Main.flags (parsed env)))
  = Some (Dict.has name (Main.flags (parsed env))).
Proof.
  intros Hname. unfold Main.fill_defaults. rewrite fill_get.
  unfold Dict.has.
  destruct (Dict.get name (Main.flags (parsed env))) as [b|] eqn:Hget.
  - by rewrite (dict_get_values (fun v => v = true) _ _ _
                  (parsed_values env) Hget).
  - apply main_mem_spec in Hname. by rewrite Hname.
Qed.

(** What the colour flags add to the colour switches. *)
Definition color_flag_events (a : Main.Args) : list event :=
  if Dict.has "--color" (Main.flags a) then [EvColors true]
  else if Dict.has "--no-color" (Main.flags a) then [EvColors false]
  else [].

(** The arguments [handle_args] returns for an accepted command line. *)
Definition handled (env : Env) : Main.Args :=
  {| Main.subcommand := Main.subcommand (parsed env);
     Main.positional := Main.positional (parsed env);
     Main.flags := Main.fill_defaults (Main.flags (parsed env)) |}.

Lemma handle_args_accepted (env : Env) (args : list string) (p : Proc) :
  Main.check_args (parsed env) = None ->
  Main.handle_args env args p
  = (Returned (handled env),
     {| events := events p ++ color_events env
                  ++ color_flag_events (parsed env);
        world := world p |}).
Proof.
  intros Hok. unfold Main.handle_args, color_events, color_flag_events.
  change (Main.parse_args env args) with (parsed env). rewrite Hok.
  fold (handled env).
  assert (Main.flag (handled env) "--color"
          = ret (Dict.has "--color" (Main.flags (parsed env)))) as Hcolor.
  { unfold Main.flag, handled. cbn [Main.flags].
    rewrite filled_flag; [done|]. cbn. set_solver. }
  assert (Main.flag (handled env) "--no-color"
          = ret (Dict.has "--no-color" (Main.flags (parsed env)))) as Hno.
  { unfold Main.flag, handled. cbn [Main.flags].
    rewrite filled_flag; [done|]. cbn. set_solver. }
  rewrite Hcolor, Hno.
  destruct (environ_NO_COLOR env && negb (stdout_isatty env));
    destruct (Dict.has "--color" (Main.flags (parsed env)));
    destruct (Dict.has "--no-color" (Main.flags (parsed env)));
    cbn; rewrite ?app_nil_r, <- ?app_assoc; try done; by destruct p.
Qed.

(** X13. For an accepted command line [handle_args] returns the parsed
    subcommand with a flag dictionary that holds each of the seven flags of
    [FLAGS] and no other key: [True] for the flags that were given and
    [False] for the others, so that looking up any known flag afterwards
    cannot fail. *)
Theorem handle_args_fills_flags (env : Env) (args : list string) (p : Proc) :
  Main.check_args (parsed env) = None ->
  exists a p',
    Main.handle_args env args p = (Returned a, p')
    /\ Main.subcommand a = Main.subcommand (parsed env)
    /\ Main.positional a = []
    /\ world p' = world p
    /\ forall name,
         Dict.get name (Main.flags a)
         = if Main.mem name (Dict.keys Main.FLAGS)
           then Some (Dict.has name (Main.flags (parsed env)))
           else None.
Proof.
  intros Hok. eexists _, _. split; [by apply handle_args_accepted|].
  split; [done|].
  destruct (accepted_parts _ Hok) as [Hpos Hknown].
  split; [done|]. split; [done|].
  intros name. cbn [handled Main.flags].
  destruct (Main.mem name (Dict.keys Main.FLAGS)) eqn:Hname.
  - apply filled_flag. by apply main_mem_spec.
  - unfold Main.fill_defaults. rewrite fill_get, Hname.
    destruct (Dict.get name (Main.flags (parsed env))) as [b|] eqn:Hget; [|done].
    assert (name ∈ Dict.keys (Main.flags (parsed env))) as Hin.
    { apply dict_has_keys. unfold Dict.has. by rewrite Hget. }
    assert (Main.mem name (Dict.keys Main.FLAGS) = true); [|congruence].
    by apply main_mem_spec, dict_has_keys, Hknown.
Qed.

Lemma handle_args_fills_flags_witness :
  exists a p',
    Main.handle_args (env_of ["fix"; "--dry-run"]) ["fix"; "--dry-run"]
      initial_proc = (Returned a, p')
    /\ Dict.get "--dry-run" (Main.flags a) = Some true
    /\ Dict.get "--all" (Main.flags a) = Some false
    /\ Dict.get "--bogus" (Main.flags a) = None.
Proof.
  destruct (handle_args_fills_flags (env_of ["fix"; "--dry-run"])
              ["fix"; "--dry-run"] initial_proc eq_refl)
    as (a & p' & Hrun & _ & _ & _ & Hget).
  exists a, p'. split; [exact Hrun|].
  split; [apply (Hget "--dry-run")|]. split; [apply (Hget "--all")|].
  apply (Hget "--bogus").
Defined.

(** X14. For an accepted command line the colour is switched as follows,
    in this order: off when [NO_COLOR] is in the environment and standard
    output is not a terminal ([NO_COLOR] alone changes nothing on a
    terminal); then on when [--color] is given, which thus overrides the
    environment, or off when [--no-color] is given. Nothing else happens in
    [handle_args]. *)
Theorem handle_args_colors (env : Env) (args : list string) (p : Proc) :
  Main.check_args (parsed env) = None ->
  events (snd (Main.handle_args env args p))
  = events p
    ++ (if environ_NO_COLOR env && negb (stdout_isatty env)
        then [EvColors false] else [])
    ++ (if Dict.has "--color" (Main.flags (parsed env)) then [EvColors true]
        else if Dict.has "--no-color" (Main.flags (parsed env))
        then [EvColors false] else [])
  /\ world (snd (Main.handle_args env args p)) = world p.
Proof. intros Hok. by rewrite handle_args_accepted. Qed.

Definition pipe_env (argv : list string) : Env :=
  {| sys_argv := "precommit" :: argv;
     environ_NO_COLOR := true;
     stdout_isatty := false;
     git_toplevel := Some "/repo";
     path_exists := fun _ => false;
     os_error := fun _ => None;
     st_mode := fun _ => 420%N;
     precommit_py := None;
     filesystem := Mock.MockFilesystem |}.

Lemma handle_args_colors_witness :
  events (snd (Main.handle_args (pipe_env ["--color"]) ["--color"]
                 initial_proc))
  = [EvColors false; EvColors true].
Proof.
  destruct (handle_args_colors (pipe_env ["--color"]) ["--color"]
              initial_proc eq_refl) as [Hevents _].
  exact Hevents.
Defined.

(** ** Dispatch *)

Lemma flag_handled (env : Env) (name : string) (p : Proc) :
  name ∈ Dict.keys Main.FLAGS ->
  Main.flag (handled env) name p
  = (Returned (Dict.has name (Main.flags (parsed env))), p).
Proof.
  intros Hname. unfold Main.flag, handled. cbn [Main.flags].
  by rewrite filled_flag.
Qed.

(** What happened when [chdir_to_git_root] starts: the colour switches. *)
Definition switched (env : Env) : list event :=
  color_events env ++ color_flag_events (parsed env).

(** The state in which [main] dispatches: the colour switches are done and
    the process stands in the root of the repository. *)
Definition at_root (env : Env) (root : string) : Proc :=
  {| events := switched env ++ [EvChdir root]; world := empty_world |}.

(** git reports the root of the repository in ASCII, and the process can
    change to it. *)
Definition in_repository (env : Env) (root : string) : Prop :=
  exists stdout,
    git_toplevel env = Some stdout
    /\ Py.is_ascii stdout = true
    /\ root = Py.strip stdout
    /\ os_error env (Chdir root) = None.

Lemma main_before_dispatch (env : Env) :
  Main.check_args (parsed env) = None ->
  Main.main env initial_proc
  = (let* _ := Main.chdir_to_git_root env in
     let* help := Main.flag (handled env) "--help" in
     if String.eqb (Main.subcommand (parsed env)) "help" || help
     then Main.main_help env (handled env)
     else if String.eqb (Main.subcommand (parsed env)) "init"
     then Main.main_init env (handled env)
     else if String.eqb (Main.subcommand (parsed env)) "fix"
     then Main.main_fix env (handled env)
     else Main.main_check env (handled env))
      {| events := switched env; world := empty_world |}.
Proof.
  intros Hok. unfold Main.main. unfold bind at 1.
  by rewrite handle_args_accepted.
Qed.

Lemma main_dispatch (env : Env) (root : string) :
  Main.check_args (parsed env) = None ->
  in_repository env root ->
  Main.main env initial_proc
  = (if String.eqb (Main.subcommand (parsed env)) "help"
        || Dict.has "--help" (Main.flags (parsed env))
     then Main.main_help env (handled env)
     else if String.eqb (Main.subcommand (parsed env)) "init"
     then Main.main_init env (handled env)
     else if String.eqb (Main.subcommand (parsed env)) "fix"
     then Main.main_fix env (handled env)
     else Main.main_check env (handled env)) (at_root env root).
Proof.
  intros Hok (stdout & Hgit & Hascii & -> & Hchdir).
  rewrite main_before_dispatch by done.
  unfold bind at 1. unfold Main.chdir_to_git_root.
  rewrite Hgit, Hascii. unfold Main.os, Main.decoded_root. rewrite Hchdir.
  cbn [events world].
  unfold bind at 1. by rewrite flag_handled by (cbn; set_solver).
Qed.




(** A repository as git reports it, with the line feed behind the path;
    [existing] are the paths that exist and [failing] the calls to the
    operating system that raise. *)
Definition repo_env (argv : list string) (stdout : string)
    (existing : list string) (failing : os_call -> option exn)
    (config : option (list Checker -> outcome (list Checker))) : Env :=
  {| sys_argv := "precommit" :: argv;
     environ_NO_COLOR := false;
     stdout_isatty := true;
     git_toplevel := Some stdout;
     path_exists := fun path => Main.mem path existing;
     os_error := failing;
     st_mode := fun _ => 420%N;
     precommit_py := config;
     filesystem := Mock.MockFilesystem |}.

Definition repo_stdout : string := "/home/me/repo" +:+ Py.nl.

(** X15. When git reports the root of the repository in ASCII, an accepted
    command line whose subcommand is [help] or that carries [--help] (or
    [-h]) prints the help text and ends with status 0, whatever the
    subcommand: [fix --help] fixes nothing and [init -h] writes nothing, and
    the configuration is not loaded. When the bytes git reports are not
    ASCII, decoding them raises [UnicodeDecodeError] before the dispatch:
    the run ends with status 1 and prints no help. *)
Theorem help_wins (env : Env) :
  Main.check_args (parsed env) = None ->
  Main.subcommand (parsed env) = "help"
  \/ Dict.has "--help" (Main.flags (parsed env)) = true ->
  (forall root,
     in_repository env root ->
     Main.run env
     = (0%Z,
        {| events := color_events env ++ color_flag_events (parsed env)
                     ++ [EvChdir root; EvStdout Main.HELP];
           world := empty_world |}))
  /\ (forall stdout,
        git_toplevel env = Some stdout -> Py.is_ascii stdout = false ->
        Main.main env initial_proc
        = (Raised (UnicodeDecodeError stdout),
           {| events := color_events env ++ color_flag_events (parsed env);
              world := empty_world |})
        /\ fst (Main.run env) = 1%Z).
Proof.
  intros Hok Hhelp. split.
  - intros root Hrepo. unfold Main.run.
    rewrite (main_dispatch env root) by done.
    assert (String.eqb (Main.subcommand (parsed env)) "help"
            || Dict.has "--help" (Main.flags (parsed env)) = true) as ->.
    { destruct Hhelp as [-> | ->]; [done | apply orb_true_r]. }
    unfold Main.main_help, at_root, switched. cbn.
    by rewrite <- ?app_assoc.
  - intros stdout Hgit Hascii.
    assert (Main.main env initial_proc
            = (Raised (UnicodeDecodeError stdout),
               {| events := color_events env ++ color_flag_events (parsed env);
                  world := empty_world |})) as Hmain.
    { rewrite main_before_dispatch by done.
      unfold bind at 1. unfold Main.chdir_to_git_root.
      by rewrite Hgit, Hascii. }
    split; [done|]. unfold Main.run. by rewrite Hmain.
Qed.

Lemma help_wins_witness :
  Main.run (repo_env ["fix"; "-h"] repo_stdout [] (fun _ => None) None)
  = (0%Z,
     {| events := [EvChdir "/home/me/repo"; EvStdout Main.HELP];
        world := empty_world |})
  /\ fst (Main.run (repo_env ["help"]
                      (String (ascii_of_nat 233) EmptyString +:+ Py.nl)
                      [] (fun _ => None) None)) = 1%Z.
Proof.
  split.
  - destruct (help_wins
                (repo_env ["fix"; "-h"] repo_stdout [] (fun _ => None) None)
                eq_refl (or_intror eq_refl)) as [Hhelp _].
    apply (Hhelp "/home/me/repo").
    exists repo_stdout. repeat split; reflexivity.
  - destruct (help_wins
                (repo_env ["help"]
                   (String (ascii_of_nat 233) EmptyString +:+ Py.nl)
                   [] (fun _ => None) None)
                eq_refl (or_introl eq_refl)) as [_ Hbad].
    destruct (Hbad (String (ascii_of_nat 233) EmptyString +:+ Py.nl)
                eq_refl eq_refl) as [_ Hstatus].
    exact Hstatus.
Defined.

Definition hook_path : string := ".git/hooks/pre-commit".

Definition hook_text : string :=
  "#!/bin/sh" +:+ Py.nl +:+ Py.nl +:+ "precommit --all" +:+ Py.nl.

(** The mode [main_init] gives the hook: the mode it has, with the execute
    bits of owner, group and others. *)
Definition hook_mode (env : Env) : N :=
  N.lor (N.lor (N.lor (st_mode env hook_path) 64) 8) 1.

(** What [main_init] does once it has decided to write: each call to the
    operating system may raise, and what was written before stays. *)
Definition init_writes (env : Env) (p : Proc) : outcome unit * Proc :=
  let after (added : list event) : Proc :=
    {| events := events p ++ added; world := world p |} in
  let w1 := EvWriteFile "precommit.py" Main.PRECOMMIT in
  let w2 := EvWriteFile hook_path hook_text in
  match os_error env (OpenWrite "precommit.py") with
  | Some e => (Raised e, p)
  | None =>
      match os_error env (OpenWrite hook_path) with
      | Some e => (Raised e, after [w1])
      | None =>
          match os_error env (Stat hook_path) with
          | Some e => (Raised e, after [w1; w2])
          | None =>
              match os_error env (Chmod hook_path) with
              | Some e => (Raised e, after [w1; w2])
              | None =>
                  (Returned tt,
                   after [w1; w2; EvChmod hook_path (hook_mode env)])
              end
          end
      end
  end.

Lemma main_init_run (env : Env) (p : Proc) :
  let force := Dict.has "--force" (Main.flags (parsed env)) in
  Main.main_init env (handled env) p
  = if negb force && path_exists env "precommit.py"
    then
      (Raised (SystemExit 1),
       {| events := events p
                    ++ [EvStderr
                          "Error: precommit.py already exists. Re-run with --force to overwrite it."];
          world := world p |})
    else if negb force && path_exists env hook_path
    then
      (Raised (SystemExit 1),
       {| events := events p
                    ++ [EvStderr
                          "Error: .git/hooks/pre-commit already exists. Re-run with --force to overwrite it."];
          world := world p |})
    else init_writes env p.
Proof.
  intros force. unfold Main.main_init. unfold bind at 1.
  rewrite flag_handled by (cbn; set_solver). fold force.
  change (Main.path_join (Main.path_join ".git" "hooks") "pre-commit")
    with hook_path.
  unfold init_writes, hook_mode, hook_text.
  destruct (negb force && path_exists env "precommit.py"); [done|].
  destruct (negb force && path_exists env hook_path); [done|].
  unfold bind, Main.os, ret, raise. cbn.
  destruct (os_error env (OpenWrite "precommit.py")); [by destruct p|].
  destruct (os_error env (OpenWrite hook_path)); [done|].
  cbn. destruct (os_error env (Stat hook_path)).
  { cbn. by rewrite <- ?app_assoc. }
  cbn. destruct (os_error env (Chmod hook_path)); cbn;
    by rewrite <- ?app_assoc, ?app_nil_r.
Qed.

Lemma hook_mode_bits (env : Env) (i : N) :
  N.testbit (hook_mode env) i
  = N.testbit (st_mode env hook_path) i
    || (i =? 6)%N || (i =? 3)%N || (i =? 0)%N.
Proof.
  unfold hook_mode. rewrite !N.lor_spec.
  change 64%N with (2 ^ 6)%N. change 8%N with (2 ^ 3)%N.
  change 1%N with (2 ^ 0)%N.
  rewrite !N.pow2_bits_eqb.
  by rewrite (N.eqb_sym 6 i), (N.eqb_sym 3 i), (N.eqb_sym 0 i).
Qed.

(** X17. [init] in a repository whose root git reports in ASCII, without
    [--help]. Without [--force], an existing [precommit.py], or else an
    existing hook, ends the run with status 1 and one error line that names
    the file, before anything is written. Otherwise [precommit.py] is
    written first, then the hook that runs [precommit --all], and the hook
    gets the execute bits of owner, group and others on top of its mode; the
    status is 0 when every call to the operating system succeeds. A call
    that raises ends the run with that exception and what was written before
    it stays: when the hook cannot be opened, [precommit.py] is already
    there. *)
Theorem init_writes_or_refuses (env : Env) (root : string) :
  Main.check_args (parsed env) = None ->
  in_repository env root ->
  Main.subcommand (parsed env) = "init" ->
  Dict.has "--help" (Main.flags (parsed env)) = false ->
  let force := Dict.has "--force" (Main.flags (parsed env)) in
  let before := color_events env ++ color_flag_events (parsed env)
                ++ [EvChdir root] in
  let w1 := EvWriteFile "precommit.py" Main.PRECOMMIT in
  let w2 := EvWriteFile hook_path hook_text in
  let ends (o : outcome unit) (added : list event) : Z * Proc :=
    (Main.exit_status o,
     {| events := before ++ added; world := empty_world |}) in
  Main.run env
  = (if negb force && path_exists env "precommit.py"
     then
       ends (Raised (SystemExit 1))
         [EvStderr
            "Error: precommit.py already exists. Re-run with --force to overwrite it."]
     else if negb force && path_exists env hook_path
     then
       ends (Raised (SystemExit 1))
         [EvStderr
            "Error: .git/hooks/pre-commit already exists. Re-run with --force to overwrite it."]
     else
       match os_error env (OpenWrite "precommit.py") with
       | Some e => ends (Raised e) []
       | None =>
           match os_error env (OpenWrite hook_path) with
           | Some e => ends (Raised e) [w1]
           | None =>
               match os_error env (Stat hook_path) with
               | Some e => ends (Raised e) [w1; w2]
               | None =>
                   match os_error env (Chmod hook_path) with
                   | Some e => ends (Raised e) [w1; w2]
                   | None =>
                       ends (Returned tt)
                         [w1; w2; EvChmod hook_path (hook_mode env)]
                   end
               end
           end
       end)
  /\ forall i,
       N.testbit (hook_mode env) i
       = N.testbit (st_mode env hook_path) i
         || (i =? 6)%N || (i =? 3)%N || (i =? 0)%N.
Proof.
  intros Hok Hrepo Hsub Hhelp force before w1 w2 ends.
  split; [|apply hook_mode_bits].
  unfold Main.run.
  rewrite (main_dispatch env root) by done.
  rewrite Hsub, Hhelp. cbn [String.eqb Ascii.eqb Bool.eqb orb andb].
  rewrite main_init_run. fold force. unfold at_root, switched, ends.
  rewrite <- app_assoc. fold before. cbn [events world].
  destruct (negb force && path_exists env "precommit.py"); [done|].
  destruct (negb force && path_exists env hook_path); [done|].
  unfold init_writes. cbn [events world].
  destruct (os_error env (OpenWrite "precommit.py")).
  { cbn. by rewrite app_nil_r. }
  destruct (os_error env (OpenWrite hook_path)); [done|].
  destruct (os_error env (Stat hook_path)); [done|].
  by destruct (os_error env (Chmod hook_path)).
Qed.

(** [.git/hooks] is missing: the hook cannot be opened. *)
Definition no_hooks_directory (call : os_call) : option exn :=
  match call with
  | OpenWrite path =>
      if String.eqb path hook_path then Some (OSError hook_path) else None
  | _ => None
  end.

Lemma init_writes_or_refuses_witness :
  Main.run (repo_env ["init"] repo_stdout [".git/hooks/pre-commit"]
              (fun _ => None) None)
  = (1%Z,
     {| events :=
          [EvChdir "/home/me/repo";
           EvStderr
             "Error: .git/hooks/pre-commit already exists. Re-run with --force to overwrite it."];
        world := empty_world |})
  /\ Main.run (repo_env ["init"; "-f"] repo_stdout [".git/hooks/pre-commit"]
                 (fun _ => None) None)
     = (0%Z,
        {| events :=
             [EvChdir "/home/me/repo";
              EvWriteFile "precommit.py" Main.PRECOMMIT;
              EvWriteFile hook_path hook_text;
              EvChmod hook_path 493];
           world := empty_world |})
  /\ Main.run (repo_env ["init"] repo_stdout [] no_hooks_directory None)
     = (1%Z,
        {| events :=
             [EvChdir "/home/me/repo";
              EvWriteFile "precommit.py" Main.PRECOMMIT];
           world := empty_world |}).
Proof.
  assert (forall argv existing failing,
            in_repository (repo_env argv repo_stdout existing failing None)
              "/home/me/repo" <-> failing (Chdir "/home/me/repo") = None)
    as Hrepo.
  { intros argv existing failing. split.
    - by intros (stdout & [= <-] & _ & _ & Hchdir).
    - intros Hchdir. exists repo_stdout. by repeat split. }
  split; [|split].
  - destruct (init_writes_or_refuses
                (repo_env ["init"] repo_stdout [".git/hooks/pre-commit"]
                   (fun _ => None) None) "/home/me/repo"
                eq_refl (proj2 (Hrepo _ _ _) eq_refl) eq_refl eq_refl)
      as [Hrun _].
    exact Hrun.
  - destruct (init_writes_or_refuses
                (repo_env ["init"; "-f"] repo_stdout [".git/hooks/pre-commit"]
                   (fun _ => None) None) "/home/me/repo"
                eq_refl (proj2 (Hrepo _ _ _) eq_refl) eq_refl eq_refl)
      as [Hrun _].
    exact Hrun.
  - destruct (init_writes_or_refuses
                (repo_env ["init"] repo_stdout [] no_hooks_directory None)
                "/home/me/repo"
                eq_refl (proj2 (Hrepo _ _ _) eq_refl) eq_refl eq_refl)
      as [Hrun _].
    exact Hrun.
Defined.

(** X18. In a repository whose root git reports in ASCII, for an accepted
    [check] or [fix] command line without [--help]: when loading
    [precommit.py] raises [FileNotFoundError] or [ImportError], the run ends
    with status 1 after one error line that points to [precommit init], and
    the gateway is not used. Any other exception of the load (a
    [SyntaxError] in the file, an exception in its [init]) is not caught: it
    ends the run as it is, without that line and without a check. *)
Theorem missing_configuration (env : Env) (root : string) :
  Main.check_args (parsed env) = None ->
  in_repository env root ->
  Main.subcommand (parsed env) = "check"
  \/ Main.subcommand (parsed env) = "fix" ->
  Dict.has "--help" (Main.flags (parsed env)) = false ->
  let before := color_events env ++ color_flag_events (parsed env)
                ++ [EvChdir root] in
  (precommit_py env = None ->
   Main.run env
   = (1%Z,
      {| events := before
                   ++ [EvStderr
                         "Error: could not find precommit.py. You can create it with 'precommit init'."];
         world := empty_world |}))
  /\ (forall load e,
        precommit_py env = Some load -> load [] = Raised e ->
        Main.main env initial_proc
        = (Raised e,
           {| events := before
                        ++ [EvLoadConfig
                              (Main.path_join root "precommit.py")];
              world := empty_world |})).
Proof.
  intros Hok Hrepo Hsub Hhelp before.
  assert (Main.getcwd env = root) as Hcwd.
  { destruct Hrepo as (stdout & Hgit & _ & -> & _).
    unfold Main.getcwd. by rewrite Hgit. }
  split.
  - intros Hconf. unfold Main.run.
    rewrite (main_dispatch env root) by done. rewrite Hhelp.
    unfold Main.main_fix, Main.main_check, Main.get_precommit.
    rewrite Hconf. unfold at_root, switched, before.
    destruct Hsub as [-> | ->]; cbn; by rewrite <- ?app_assoc.
  - intros load e Hconf Hload.
    rewrite (main_dispatch env root) by done. rewrite Hhelp.
    unfold Main.main_fix, Main.main_check, Main.get_precommit.
    rewrite Hconf, Hcwd. unfold at_root, switched, before.
    destruct Hsub as [-> | ->]; cbn; unfold bind, Main.emit; cbn;
      rewrite Hload; cbn; by rewrite <- ?app_assoc.
Qed.

Lemma missing_configuration_witness :
  Main.run (repo_env ["fix"; "--dry-run"] repo_stdout [] (fun _ => None) None)
  = (1%Z,
     {| events :=
          [EvChdir "/home/me/repo";
           EvStderr
             "Error: could not find precommit.py. You can create it with 'precommit init'."];
        world := empty_world |})
  /\ Main.run (repo_env ["check"] repo_stdout [] (fun _ => None)
                 (Some (fun _ => Raised (SyntaxError "precommit.py"))))
     = (1%Z,
        {| events :=
             [EvChdir "/home/me/repo";
              EvLoadConfig "/home/me/repo/precommit.py"];
           world := empty_world |}).
Proof.
  split.
  - destruct (missing_configuration
                (repo_env ["fix"; "--dry-run"] repo_stdout [] (fun _ => None)
                   None) "/home/me/repo") as [Hmissing _];
      [reflexivity
      | exists repo_stdout; by repeat split
      | by right
      | reflexivity |].
    by apply Hmissing.
  - destruct (missing_configuration
                (repo_env ["check"] repo_stdout [] (fun _ => None)
                   (Some (fun _ => Raised (SyntaxError "precommit.py"))))
                "/home/me/repo") as [_ Hbroken];
      [reflexivity
      | exists repo_stdout; by repeat split
      | by left
      | reflexivity |].
    unfold Main.run.
    by rewrite (Hbroken _ (SyntaxError "precommit.py") eq_refl eq_refl).
Defined.

(** ** Runs of the parser *)

Lemma double_dash_ends_flag_parsing_witness :
  "--all" ∈ fst (Main.parse_loop ["-f"; "fix"; "--"; "--all"; "--"; "x"]
                  false [] [])
  /\ ("--" ∉ fst (Main.parse_loop ["-f"; "fix"; "--"; "--all"; "--"; "x"]
                    false [] [])).
Proof.
  destruct (double_dash_ends_flag_parsing
              ["-f"; "fix"; "--"; "--all"; "--"; "x"])
    as (_ & _ & Hno & _ & Hafter).
  split; [|exact Hno].
  apply Hafter; [|done]. cbn. left.
Defined.

Lemma parsed_flags_invariant_witness :
  "--force" ∈ Dict.keys (Main.flags (parsed (env_of ["-f"; "init"; "--force"])))
  /\ NoDup (Dict.keys (Main.flags (parsed (env_of ["-f"; "init"; "--force"])))).
Proof.
  destruct (parsed_flags_invariant (env_of ["-f"; "init"; "--force"]))
    as (Hnodup & _ & Hkeys & _).
  split; [|exact Hnodup].
  apply Hkeys. exists "-f". split; [left|]. split; reflexivity.
Defined.

Lemma check_args_accepts_witness :
  Main.positional (parsed (env_of ["fix"; "--dry-run"; "-h"])) = []
  /\ Main.subcommand (parsed (env_of ["fix"; "--dry-run"; "-h"]))
     ∈ Main.SUBCOMMANDS.
Proof.
  destruct (proj1 (check_args_accepts
                     (parsed (env_of ["fix"; "--dry-run"; "-h"]))) eq_refl)
    as (Hpos & Hsub & _).
  split; [exact Hpos | exact Hsub].
Defined.
